(** * Risk scoring pipeline (HHI + HOPE + chaotic risk + integrator)

    A shallow embedding of the scoring engines under [app/engine]:
    [hhi_engine.py], [hope_engine.py], [chaotic_risk.py] and
    [risk_integrator.py].

    Numbers.  Python floats and ints are idealised as real numbers
    ([R]); non-finite floats (inf, nan) and binary rounding of the
    arithmetic are outside the model.  The decimal rounding the code
    asks for explicitly, [round(x, 6)], is modelled ([round6]).

    Dynamic values.  Fields of the loosely typed dictionaries (macro
    signals, provocation entries) are JSON-like values [pyval]; Python
    exceptions are the [Raise] outcomes of a small error monad, and
    [try ... except Exception] is [try_except]. *)

From Stdlib Require Import Reals Lra Lia ZArith List String Ascii Bool.
From Stdlib Require Import Permutation.
Import ListNotations.
Local Open Scope string_scope.
Local Open Scope list_scope.
Local Open Scope R_scope.

(** ** Python values and exceptions *)

Inductive pyexn : Set :=
| TypeError | ValueError | AttributeError | ZeroDivisionError.

Inductive outcome (A : Type) : Type :=
| Ok (a : A)
| Raise (e : pyexn).
Arguments Ok {A} a.
Arguments Raise {A} e.

Definition bind {A B : Type} (c : outcome A) (k : A -> outcome B) : outcome B :=
  match c with
  | Ok a => k a
  | Raise e => Raise e
  end.

Notation "x <- c ;; k" := (bind c (fun x => k))
  (at level 61, c at next level, right associativity).

(** [try: v = c  except Exception: v = d] *)
Definition try_except {A : Type} (c : outcome A) (d : A) : A :=
  match c with
  | Ok a => a
  | Raise _ => d
  end.

Definition returns {A : Type} (c : outcome A) : Prop :=
  exists a, c = Ok a.

#[local] Unset Elimination Schemes.
Inductive pyval : Type :=
| VNone
| VBool (b : bool)
| VNum (x : R)
| VStr (s : string)
| VList (l : list pyval)
| VDict (d : list (string * pyval)).
#[local] Set Elimination Schemes.

Definition pydict : Type := list (string * pyval).

Definition Reqb (x y : R) : bool := if Req_dec_T x y then true else false.
Definition Rltb (x y : R) : bool := if Rlt_dec x y then true else false.

(** Truth value of a Python object. *)
Definition truthy (v : pyval) : bool :=
  match v with
  | VNone => false
  | VBool b => b
  | VNum x => negb (Reqb x 0)
  | VStr s => negb (String.eqb s "")
  | VList l => match l with [] => false | _ => true end
  | VDict d => match d with [] => false | _ => true end
  end.

(** [v or d] *)
Definition py_or (v d : pyval) : pyval := if truthy v then v else d.

Fixpoint dict_get (d : pydict) (k : string) : option pyval :=
  match d with
  | [] => None
  | (k', v) :: d' => if String.eqb k' k then Some v else dict_get d' k
  end.

(** [d.get(k, dflt)] *)
Definition get_or (d : pydict) (k : string) (dflt : pyval) : pyval :=
  match dict_get d k with
  | Some v => v
  | None => dflt
  end.

(** [c * v] for a float constant [c]: numbers and booleans multiply,
    everything else is a [TypeError]. *)
Definition py_mul_float (c : R) (v : pyval) : outcome R :=
  match v with
  | VNum x => Ok (c * x)
  | VBool b => Ok (c * (if b then 1 else 0))
  | _ => Raise TypeError
  end.

(** [math.log10(x)]: a [ValueError] outside the domain. *)
Definition log10 (x : R) : R := ln x / ln 10.

Definition py_log10 (x : R) : outcome R :=
  if Rlt_dec 0 x then Ok (log10 x) else Raise ValueError.

(** [x / y] on floats. *)
Definition py_div (x y : R) : outcome R :=
  if Req_dec_T y 0 then Raise ZeroDivisionError else Ok (x / y).

(** [sum(l)] *)
Definition py_sum (l : list R) : R := fold_left Rplus l 0.

(** ** [round(x, 6)]

    Python rounds to the nearest multiple of 1e-6, ties to the even
    neighbour. *)

Definition round_half_even (y : R) : Z :=
  let f := Int_part y in
  let d := y - IZR f in
  if Rlt_dec d (1 / 2) then f
  else if Rlt_dec (1 / 2) d then (f + 1)%Z
  else if Z.even f then f else (f + 1)%Z.

Definition round6 (x : R) : R :=
  IZR (round_half_even (x * 1000000)) / 1000000.

(** ** engine/hhi_engine.py *)

Record hhi_item : Type := {
  it_isin : string;
  it_weight : R;
  it_pct : R;
  it_pct_sq : R
}.

(** The two shapes of the dictionary [compute_hhi_structured] returns:
    [{"error": msg, "hhi": None}] and the full result. *)
Inductive hhi_result : Type :=
| HhiError (error : string)
| HhiOk (hhi hhi_normalized : R) (n : nat) (total_weight : R)
        (items : list hhi_item).

Definition hhi_error_field (r : hhi_result) : option string :=
  match r with
  | HhiError e => Some e
  | HhiOk _ _ _ _ _ => None
  end.

Definition hhi_field (r : hhi_result) : option R :=
  match r with
  | HhiError _ => None
  | HhiOk h _ _ _ _ => Some h
  end.

(** [r.get("hhi_normalized", dflt)] *)
Definition hhi_normalized_or (r : hhi_result) (dflt : R) : R :=
  match r with
  | HhiError _ => dflt
  | HhiOk _ hn _ _ _ => hn
  end.

(** One turn of the loop over [weights.items()]: the accumulator is
    [(hhi, items)]. *)
Definition hhi_step (total : R) (acc : R * list hhi_item) (kw : string * R)
  : R * list hhi_item :=
  let '(hhi, items) := acc in
  let '(isin, w) := kw in
  let pct := w / total in
  let pct2 := pct * pct in
  (hhi + pct2,
   items ++ [{| it_isin := isin; it_weight := w;
                it_pct := round6 pct; it_pct_sq := round6 pct2 |}]).

(** The unrounded index: the value of the local [hhi] after the loop. *)
Definition hhi_raw (weights : list (string * R)) : R :=
  let total := py_sum (map snd weights) in
  fst (fold_left (hhi_step total) weights (0, [])).

(** The unrounded value of the local [hhi_normalized]. *)
Definition hhi_normalized_raw (weights : list (string * R)) : R :=
  let n := List.length weights in
  let hhi := hhi_raw weights in
  if (1 <? n)%nat then (hhi - 1 / INR n) / (1 - 1 / INR n) else 1.

Definition compute_hhi_structured (weights : list (string * R)) : hhi_result :=
  match weights with
  | [] => HhiError "No weights provided"
  | _ :: _ =>
      let total := py_sum (map snd weights) in
      if Req_dec_T total 0 then HhiError "Total weights = 0"
      else
        let '(hhi, items) := fold_left (hhi_step total) weights (0, []) in
        let n := List.length weights in
        let hhi_normalized :=
          if (1 <? n)%nat then (hhi - 1 / INR n) / (1 - 1 / INR n) else 1 in
        HhiOk (round6 hhi) (round6 hhi_normalized) n total items
  end.

(** ** engine/hope_engine.py *)

Record hope_result : Type := {
  hmi : option R;
  hope_error : option string;
  hmi_normalized : R
}.

(** The body of the [try] block of [compute_hmi]. *)
Definition hmi_norm_try (hmi : R) : outcome R :=
  let hmi_clipped := Rmin (Rmax hmi 0) 1000000 in
  l <- py_log10 (hmi_clipped + 1) ;;
  let norm := 1 - exp (- l) in
  Ok (Rmax 0 (Rmin 1 norm)).

Definition compute_hmi (market_expectation : R)
    (objective_probability : option R) : hope_result :=
  let failure := {| hmi := None;
                    hope_error := Some "objective_prob must be > 0";
                    hmi_normalized := 0 |} in
  match objective_probability with
  | None => failure
  | Some op =>
      if Rle_dec op 0 then failure
      else
        let hmi := market_expectation / op in
        let norm := try_except (hmi_norm_try hmi) 0 in
        {| hmi := Some hmi; hope_error := None; hmi_normalized := norm |}
  end.

Record sentiment_result : Type := {
  s_mean : R;
  s_std : R;
  s_count : nat
}.

(** [statistics.mean] and [statistics.pstdev] of a non-empty list. *)
Definition mean (l : list R) : R := py_sum l / INR (List.length l).

Definition pstdev (l : list R) : R :=
  let m := mean l in
  sqrt (py_sum (map (fun x => (x - m) * (x - m)) l) / INR (List.length l)).

Definition aggregate_sentiment_from_sources (sentiments : list R)
  : sentiment_result :=
  match sentiments with
  | [] => {| s_mean := 0; s_std := 0; s_count := 0 |}
  | _ :: _ =>
      let m := mean sentiments in
      let std :=
        if (1 <? List.length sentiments)%nat then pstdev sentiments else 0 in
      {| s_mean := round6 m; s_std := round6 std;
         s_count := List.length sentiments |}
  end.

(** ** engine/chaotic_risk.py *)

(** [max(0.0, min(1.0, x))]; on real numbers the comparison never
    raises, so the [except] branch of the source is dead. *)
Definition _norm01 (x : R) : R := Rmax 0 (Rmin 1 x).

(** The generator [w / s for w in weights if w > 0]. *)
Definition positive_shares (s : R) (weights : list R) : list R :=
  map (fun w => w / s) (filter (fun w => Rltb 0 w) weights).

(** Every [p] the source passes to [math.log] is positive, [p + 1e-12]
    is in the domain and [ln] stands for [math.log]. *)
Definition _entropy_of_weights (weights : list R) : R :=
  match weights with
  | [] => 0
  | _ :: _ =>
      let s := py_sum weights in
      if Rle_dec s 0 then 0
      else
        let ps := positive_shares s weights in
        match ps with
        | [] => 0
        | _ :: _ =>
            let ent := - py_sum (map (fun p => p * ln (p + 1e-12)) ps) in
            let max_ent := ln (INR (List.length ps)) in
            if Rlt_dec 0 max_ent then ent / max_ent else 0
        end
  end.

Record config : Type := {
  w_institutional : R;
  w_individual : R;
  w_vector_coherence : R;
  w_confidence : R;
  global_dampen : R
}.

Fixpoint cfg_get (cfg : list (string * R)) (k : string) (dflt : R) : R :=
  match cfg with
  | [] => dflt
  | (k', v) :: cfg' => if String.eqb k' k then v else cfg_get cfg' k dflt
  end.

(** [ChaoticRisk.__init__]: [None] and [{}] give the defaults. *)
Definition ChaoticRisk (cfg : option (list (string * R))) : config :=
  let cfg := match cfg with Some c => c | None => [] end in
  {| w_institutional := cfg_get cfg "w_institutional" 1.5;
     w_individual := cfg_get cfg "w_individual" 1.0;
     w_vector_coherence := cfg_get cfg "w_vector_coherence" 1.0;
     w_confidence := cfg_get cfg "w_confidence" 1.0;
     global_dampen := cfg_get cfg "global_dampen" 0.9 |}.

Record cr_result : Type := {
  cr_scalar : R;
  components : list (string * R);
  flags : list string
}.

(** ASCII lower-casing.  [str.lower] also maps non-ASCII letters, none
    of which lower-cases to a letter of "institutional", "state" or
    "agency", so the class test below is not affected. *)
Definition lower_ascii (c : ascii) : ascii :=
  let n := nat_of_ascii c in
  if ((65 <=? n) && (n <=? 90))%nat then ascii_of_nat (n + 32) else c.

Fixpoint lower (s : string) : string :=
  match s with
  | EmptyString => EmptyString
  | String c s' => String (lower_ascii c) (lower s')
  end.

(** [v.lower()]: only strings have the method. *)
Definition py_lower (v : pyval) : outcome string :=
  match v with
  | VStr s => Ok (lower s)
  | _ => Raise AttributeError
  end.

Definition institutional_like (src : string) : bool :=
  String.eqb src "institutional" || String.eqb src "state"
  || String.eqb src "agency".

(** Keys of [vector_map].  Lists and dicts are unhashable; numbers and
    booleans are equal as keys when they are equal as numbers. *)
Definition hashable (v : pyval) : bool :=
  match v with
  | VList _ | VDict _ => false
  | _ => true
  end.

Definition key_num (v : pyval) : option R :=
  match v with
  | VNum x => Some x
  | VBool b => Some (if b then 1 else 0)
  | _ => None
  end.

Definition key_eqb (a b : pyval) : bool :=
  match a, b with
  | VStr s, VStr t => String.eqb s t
  | VNone, VNone => true
  | _, _ =>
      match key_num a, key_num b with
      | Some x, Some y => Reqb x y
      | _, _ => false
      end
  end.

(** [vector_map.setdefault(k, 0.0); vector_map[k] += e] on the
    insertion-ordered dictionary. *)
Fixpoint vector_add (m : list (pyval * R)) (k : pyval) (e : R)
  : list (pyval * R) :=
  match m with
  | [] => [(k, 0 + e)]
  | (k', v) :: m' =>
      if key_eqb k' k then (k', v + e) :: m'
      else (k', v) :: vector_add m' k e
  end.

Record loop_state : Type := {
  inst_vals : list R;
  ind_vals : list R;
  vector_map : list (pyval * R);
  confidences : list R
}.

Definition loop_init : loop_state :=
  {| inst_vals := []; ind_vals := []; vector_map := []; confidences := [] |}.

Definition nur_amp_of (nur_severity : R) : R := 1.0 + _norm01 nur_severity.

Definition rsz_damp_of (rsz_stability : R) : R :=
  1.2 - (_norm01 rsz_stability * 0.7).

(** The [try] block that computes [compressed]. *)
Definition compressed_try (total_energy modulated : R) : outcome R :=
  l <- py_log10 (total_energy + 1.0) ;;
  let scale := 1.0 + l in
  q <- py_div modulated (scale + 1e-6) ;;
  Ok (atan q / (PI / 2)).

Definition compressed_of (total_energy modulated : R) : R :=
  try_except (compressed_try total_energy modulated) 0.

Definition flag_if (b : bool) (name : string) : list string :=
  if b then [name] else [].

Section Engines.

(** Python's built-in [float(s)] on a string: [None] stands for the
    [ValueError] of a string that is not a number.  The parser is not
    part of the repository and is taken as a parameter. *)
Variable float_of_str : string -> option R.

Definition py_float (v : pyval) : outcome R :=
  match v with
  | VNum x => Ok x
  | VBool b => Ok (if b then 1 else 0)
  | VStr s =>
      match float_of_str s with
      | Some x => Ok x
      | None => Raise ValueError
      end
  | _ => Raise TypeError
  end.

(** [d = d or {}], then [d.get(k1, d.get(k2, 0.0) or 0.0)], converted
    by [float], all inside [try ... except Exception: 0.0]. *)
Definition signal_field (sig : pyval) (k1 k2 : string) : R :=
  let sig := py_or sig (VDict []) in
  try_except
    (match sig with
     | VDict d =>
         py_float (get_or d k1 (py_or (get_or d k2 (VNum 0)) (VNum 0)))
     | _ => Raise AttributeError
     end) 0.

Definition nur_severity_of (nur : pyval) : R :=
  signal_field nur "severity_score" "severity".

Definition rsz_stability_of (rsz : pyval) : R :=
  signal_field rsz "stability_score" "action_weight".

Variable self : config.

(** One turn of [for p in provocations]. *)
Definition prov_step (st : loop_state) (p : pydict) : outcome loop_state :=
  intensity <- py_float (py_or (get_or p "intensity" (VNum 0)) (VNum 0)) ;;
  src <- py_lower (py_or (get_or p "source_type" VNone) (VStr "individual")) ;;
  conf <- py_float (py_or (get_or p "confidence" (VNum 0)) (VNum 0)) ;;
  let vect := py_or (get_or p "vector" VNone) (VStr "unknown") in
  let weight :=
    if institutional_like src then w_institutional self
    else w_individual self in
  let weighted := intensity * weight in
  let inst := if institutional_like src
              then inst_vals st ++ [weighted] else inst_vals st in
  let ind := if institutional_like src
             then ind_vals st else ind_vals st ++ [weighted] in
  if hashable vect then
    Ok {| inst_vals := inst;
          ind_vals := ind;
          vector_map := vector_add (vector_map st) vect (Rabs weighted);
          confidences := confidences st ++ [conf] |}
  else Raise TypeError.

Fixpoint prov_loop (st : loop_state) (ps : list pydict) : outcome loop_state :=
  match ps with
  | [] => Ok st
  | p :: ps' => st' <- prov_step st p ;; prov_loop st' ps'
  end.

(** Everything after the loop; no statement here can raise. *)
Definition cr_finish (st : loop_state) (nur rsz : pyval) : cr_result :=
  let sum_inst := py_sum (inst_vals st) in
  let sum_ind := py_sum (ind_vals st) in
  let total_energy := sum_inst + sum_ind + 1e-12 in
  let vector_weights := map snd (vector_map st) in
  let entropy := _entropy_of_weights vector_weights in
  let coherence := 1.0 - entropy in
  let avg_conf :=
    match confidences st with
    | [] => 0
    | _ :: _ => mean (confidences st)
    end in
  let raw := (sum_inst + sum_ind)
             * (1.0 + w_vector_coherence self * coherence)
             * (1.0 + w_confidence self * avg_conf) in
  let nur_amp := nur_amp_of (nur_severity_of nur) in
  let rsz_damp := rsz_damp_of (rsz_stability_of rsz) in
  let modulated := raw * nur_amp * rsz_damp in
  let compressed := compressed_of total_energy modulated in
  let cr := _norm01 (compressed * global_dampen self) in
  {| cr_scalar := round6 cr;
     components :=
       [("sum_institutional", round6 sum_inst);
        ("sum_individual", round6 sum_ind);
        ("total_energy", round6 total_energy);
        ("vector_count", INR (List.length (vector_map st)));
        ("vector_coherence", round6 coherence);
        ("avg_confidence", round6 avg_conf);
        ("nur_amp", round6 nur_amp);
        ("rsz_damp", round6 rsz_damp);
        ("raw_modulated", round6 modulated);
        ("compressed", round6 compressed)];
     flags :=
       flag_if (Rltb 0.8 coherence && Rltb 10.0 total_energy)
               "FOCUSED_HIGH_INTENSITY"
       ++ flag_if (Rltb (0.6 * total_energy) sum_inst && Rltb 1.0 total_energy)
                  "INSTITUTIONAL_DOMINANCE"
       ++ flag_if (Rltb avg_conf 0.25 && Rltb 2.0 total_energy)
                  "LOW_CONFIDENCE_NOISE" |}.

Definition compute_from_provocations (provocations : list pydict)
    (nur rsz : pyval) : outcome cr_result :=
  match provocations with
  | [] => Ok {| cr_scalar := 0.0; components := []; flags := [] |}
  | _ :: _ =>
      st <- prov_loop loop_init provocations ;;
      Ok (cr_finish st nur rsz)
  end.

End Engines.

(** ** engine/risk_integrator.py *)

(** A portfolio entry: [p["isin"]] and the optional [p.get("weight")]. *)
Record holding : Type := {
  isin : string;
  weight : option R
}.

(** [d[k] = v] on an insertion-ordered dictionary: an existing key keeps
    its place and takes the new value. *)
Fixpoint dict_set (d : list (string * R)) (k : string) (v : R)
  : list (string * R) :=
  match d with
  | [] => [(k, v)]
  | (k', v') :: d' =>
      if String.eqb k' k then (k', v) :: d' else (k', v') :: dict_set d' k v
  end.

(** *** [compute_hhi_for_portfolio] of engine/hhi_engine.py

    The wrapper stands here because it builds its mapping with
    [dict_set].  Strings are sequences of code points below 256; on these
    [str.isspace] holds of 9-13, 28-32, 133 and 160. *)

Definition is_space (c : ascii) : bool :=
  let n := nat_of_ascii c in
  ((9 <=? n) && (n <=? 13) || (28 <=? n) && (n <=? 32)
   || (n =? 133) || (n =? 160))%nat.

Fixpoint lstrip (s : string) : string :=
  match s with
  | EmptyString => EmptyString
  | String c s' => if is_space c then lstrip s' else s
  end.

Fixpoint rstrip (s : string) : string :=
  match s with
  | EmptyString => EmptyString
  | String c s' =>
      let r := rstrip s' in
      if is_space c && String.eqb r EmptyString then EmptyString
      else String c r
  end.

(** [s.strip()] *)
Definition strip (s : string) : string := rstrip (lstrip s).

(** [s.split(sep)] for a one-character separator. *)
Fixpoint split_on (sep : ascii) (s : string) : list string :=
  match s with
  | EmptyString => [EmptyString]
  | String c s' =>
      if Ascii.eqb c sep then EmptyString :: split_on sep s'
      else match split_on sep s' with
           | [] => [String c EmptyString]
           | t :: ts => String c t :: ts
           end
  end.

(** [[t.strip() for t in s.split(",") if t.strip()]] *)
Definition tokens (s : string) : list string :=
  filter (fun t => negb (String.eqb t EmptyString))
         (map strip (split_on "," s)).

(** The two arguments: a comma-separated string or a list. *)
Inductive isins_arg : Type :=
| IsinsStr (s : string)
| IsinsList (l : list string).

Inductive weights_arg : Type :=
| WeightsStr (s : string)
| WeightsList (l : list pyval).

(** [{"error": msg}] or the dictionary of [compute_hhi_structured]. *)
Inductive portfolio_result : Type :=
| PortfolioError (error : string)
| PortfolioResult (r : hhi_result).

(** [{isins[i]: weights[i] for i in range(len(isins))}], for lists of
    the same length. *)
Definition paired (isins : list string) (weights : list R)
  : list (string * R) :=
  fold_left (fun d kw => dict_set d (fst kw) (snd kw))
            (combine isins weights) [].

Section PortfolioWrapper.

Variable float_of_str : string -> option R.

(** [[float(w) for w in weights]] *)
Fixpoint floats_of (weights : list pyval) : outcome (list R) :=
  match weights with
  | [] => Ok []
  | w :: ws =>
      x <- py_float float_of_str w ;;
      xs <- floats_of ws ;;
      Ok (x :: xs)
  end.

Definition compute_hhi_for_portfolio (isins : isins_arg)
    (weights : weights_arg) : portfolio_result :=
  let isins :=
    match isins with
    | IsinsStr s => tokens s
    | IsinsList l => l
    end in
  let weights :=
    match weights with
    | WeightsStr s => map VStr (tokens s)
    | WeightsList l => l
    end in
  match floats_of weights with
  | Raise _ => PortfolioError "Weights must be numeric"
  | Ok weights =>
      if negb (List.length isins =? List.length weights)%nat
      then PortfolioError "ISINs count does not match weights count"
      else PortfolioResult (compute_hhi_structured (paired isins weights))
  end.

End PortfolioWrapper.

(** [{p["isin"]: p.get("weight", 0.0) for p in portfolio}] *)
Definition weights_of (portfolio : list holding) : list (string * R) :=
  fold_left
    (fun d p => dict_set d (isin p)
                  (match weight p with Some w => w | None => 0.0 end))
    portfolio [].

Inductive level : Set := STABLE | WATCH | ELEVATED | DANGER.

Definition risk_level_of (composite : R) : level :=
  if Rlt_dec 0.65 composite then DANGER
  else if Rlt_dec 0.4 composite then ELEVATED
  else if Rlt_dec 0.2 composite then WATCH
  else STABLE.

(** The weighted sum of step 6, on numeric sub-scores. *)
Definition composite_of (hhi_normalized nur_score rsz_score cycles_score
                         hope_norm cr_scalar : R) : R :=
  0.20 * hhi_normalized + 0.15 * nur_score + 0.10 * rsz_score
  + 0.15 * cycles_score + 0.20 * hope_norm + 0.20 * cr_scalar.

(** [sig.get(k, 0.0) if isinstance(sig, dict) else 0.0] *)
Definition macro_score (sig : pyval) (k : string) : pyval :=
  match sig with
  | VDict d => get_or d k (VNum 0.0)
  | _ => VNum 0.0
  end.

Record risk_result : Type := {
  portfolio_hhi : hhi_result;
  hope : hope_result;
  sentiment_agg : sentiment_result;
  out_nur : pyval;
  out_rsz : pyval;
  out_cycles : pyval;
  out_provocations : list pydict;
  chaotic_risk : cr_result;
  composite : R;
  risk_level : level
}.

(** The state of a [RiskIntegrator]: the two other engines hold no
    data, the chaotic layer holds its configuration. *)
Record integrator : Type := { cr : config }.

Definition RiskIntegrator
    (cfg : option (list (string * list (string * R)))) : integrator :=
  {| cr := ChaoticRisk
             match cfg with
             | Some (c :: cs) =>
                 Some (match find (fun kv => String.eqb (fst kv) "chaotic")
                                  (c :: cs) with
                       | Some kv => snd kv
                       | None => []
                       end)
             | _ => None
             end |}.

(** The module-level instance. *)
Definition risk_integrator : integrator := RiskIntegrator None.

Section Integrate.

Variable float_of_str : string -> option R.
Variable self : integrator.

Definition integrate (portfolio : list holding) (nur rsz cycles : pyval)
    (market_expectation objective_prob : option R)
    (sentiments : option (list R)) (provocations : option (list pydict))
  : outcome risk_result :=
  let weights := weights_of portfolio in
  let hhi_struct := compute_hhi_structured weights in
  let hope_res :=
    match market_expectation, objective_prob with
    | Some me, Some op => compute_hmi me (Some op)
    | _, _ => {| hmi := None; hope_error := None; hmi_normalized := 0.0 |}
    end in
  let hope_norm := hmi_normalized hope_res in
  let sentiment_agg :=
    aggregate_sentiment_from_sources
      (match sentiments with Some l => l | None => [] end) in
  let nur_score := macro_score nur "severity_score" in
  let rsz_score := macro_score rsz "action_weight" in
  let cycles_score := macro_score cycles "cycle_pressure" in
  let provs := match provocations with Some l => l | None => [] end in
  cr_res <- compute_from_provocations float_of_str (cr self) provs nur rsz ;;
  let cr_scalar := cr_scalar cr_res in
  t_nur <- py_mul_float 0.15 nur_score ;;
  t_rsz <- py_mul_float 0.10 rsz_score ;;
  t_cycles <- py_mul_float 0.15 cycles_score ;;
  let composite :=
    0.20 * hhi_normalized_or hhi_struct 0.0 + t_nur + t_rsz + t_cycles
    + 0.20 * hope_norm + 0.20 * cr_scalar in
  Ok {| portfolio_hhi := hhi_struct;
        hope := hope_res;
        sentiment_agg := sentiment_agg;
        out_nur := nur;
        out_rsz := rsz;
        out_cycles := cycles;
        out_provocations := provs;
        chaotic_risk := cr_res;
        composite := round6 composite;
        risk_level := risk_level_of composite |}.

End Integrate.

(** ** Auxiliary definitions for the proofs *)

(** The local [total] of [compute_hhi_structured]. *)
Definition total_of (weights : list (string * R)) : R :=
  py_sum (map snd weights).

(** The squared share [pct2] of one entry. *)
Definition share_sq (total : R) (kw : string * R) : R :=
  (snd kw / total) * (snd kw / total).

(** Certified lower bounds of [exp] at a rational [p/q], computed in
    fixed point with 80 fractional bits: [(1 + x/2^k)^(2^k)] by [k]
    squarings, every step rounded down. *)
Definition fx_one : Z := (2 ^ 80)%Z.

Fixpoint fx_sq_iter (k : nat) (c : Z) : Z :=
  match k with
  | O => c
  | S k' => fx_sq_iter k' (c * c / fx_one)
  end.

Definition exp_lb (k : nat) (p q : Z) : Z :=
  let n := (q * 2 ^ Z.of_nat k)%Z in
  fx_sq_iter k (fx_one * (n + p) / n).

(** The number a value stands for in float arithmetic, if any. *)
Definition num_of (v : pyval) : option R :=
  match v with
  | VNum x => Some x
  | VBool b => Some (if b then 1 else 0)
  | _ => None
  end.


(** ** Sample inputs *)

(** A parser that accepts no string: it stands for [float] in the
    evaluations below, whose inputs hold no string in a numeric field. *)
Definition float_of_str_none : string -> option R := fun _ => None.

Definition sample_provocation : pydict :=
  [("id", VStr "p1"); ("source_type", VStr "State");
   ("intensity", VNum 2); ("vector", VStr "fx");
   ("confidence", VNum 0.5)].

Definition sample_nur : pyval := VDict [("severity_score", VNum 0.5)].
Definition sample_rsz : pyval := VDict [("stability_score", VNum 1)].

Definition sample_state : loop_state :=
  {| inst_vals := [2 * 1.5];
     ind_vals := [];
     vector_map := [(VStr "fx", 0 + Rabs (2 * 1.5))];
     confidences := [0.5] |}.

(** Macro signals whose scores put the weighted sum just above the
    WATCH threshold. *)
Definition edge_nur : pyval := VDict [("severity_score", VNum 1)].
Definition edge_rsz : pyval := VDict [("action_weight", VNum 0.500004)].
Definition edge_cycles : pyval := VDict [].

(** A macro signal whose severity_score is JSON null. *)
Definition null_nur : pyval := VDict [("severity_score", VNone)].

(** A provocation entry whose intensity is a JSON array. *)
Definition array_provocation : pydict := [("intensity", VList [VNum 1])].

(** A provocation entry whose intensity is a word. *)
Definition word_provocation : pydict := [("intensity", VStr "high")].

(** The last scenario of the specification: two institutional-like
    provocations on one vector, with high confidence. *)
Definition focused_provocations : list pydict :=
  [[("source_type", VStr "institutional"); ("intensity", VNum 5);
    ("vector", VStr "fx"); ("confidence", VNum 0.9)];
   [("source_type", VStr "Agency"); ("intensity", VNum 5);
    ("vector", VStr "fx"); ("confidence", VNum 0.9)]].

Definition focused_state : loop_state :=
  {| inst_vals := [5 * 1.5; 5 * 1.5];
     ind_vals := [];
     vector_map := [(VStr "fx", 0 + Rabs (5 * 1.5) + Rabs (5 * 1.5))];
     confidences := [0.9; 0.9] |}.

(** ** Auxiliary definitions for the further properties *)


(** The visible numbers of a concentration result: error message, hhi,
    hhi_normalized and n. *)
Definition hhi_summary (r : hhi_result)
  : option string * option R * option R * option nat :=
  match r with
  | HhiError e => (Some e, None, None, None)
  | HhiOk h hn n _ _ => (None, Some h, Some hn, Some n)
  end.

(** The entry of [items] that the loop of [compute_hhi_structured]
    appends for one [(isin, w)]. *)
Definition hhi_item_of (total : R) (kw : string * R) : hhi_item :=
  {| it_isin := fst kw; it_weight := snd kw;
     it_pct := round6 (snd kw / total);
     it_pct_sq := round6 (snd kw / total * (snd kw / total)) |}.

(** The four readings of one provocation entry, as [prov_step] makes
    them. *)
Definition prov_intensity (float_of_str : string -> option R) (p : pydict)
  : outcome R :=
  py_float float_of_str (py_or (get_or p "intensity" (VNum 0)) (VNum 0)).

Definition prov_source (p : pydict) : outcome string :=
  py_lower (py_or (get_or p "source_type" VNone) (VStr "individual")).

Definition prov_confidence (float_of_str : string -> option R) (p : pydict)
  : outcome R :=
  py_float float_of_str (py_or (get_or p "confidence" (VNum 0)) (VNum 0)).

Definition prov_vector (p : pydict) : pyval :=
  py_or (get_or p "vector" VNone) (VStr "unknown").

(** The class weight [prov_step] applies to a lower-cased source. *)
Definition class_weight (self : config) (src : string) : R :=
  if institutional_like src then w_institutional self else w_individual self.

(** A configuration without negative weights. *)
Definition config_nonneg (self : config) : Prop :=
  0 <= w_institutional self /\ 0 <= w_individual self
  /\ 0 <= w_vector_coherence self /\ 0 <= w_confidence self
  /\ 0 <= global_dampen self.

(** An entry whose intensity and confidence, once converted, are not
    negative. *)
Definition prov_nonneg (float_of_str : string -> option R) (p : pydict)
  : Prop :=
  (forall i, prov_intensity float_of_str p = Ok i -> 0 <= i)
  /\ (forall c, prov_confidence float_of_str p = Ok c -> 0 <= c).

(** [d.get(k)] on a mapping of weights. *)
Fixpoint weight_lookup (d : list (string * R)) (k : string) : option R :=
  match d with
  | [] => None
  | (k', v) :: d' => if String.eqb k' k then Some v else weight_lookup d' k
  end.

(** [p.get("weight", 0.0)] *)
Definition weight_or_zero (p : holding) : R :=
  match weight p with Some w => w | None => 0.0 end.

(** The order of the four levels. *)
Definition level_rank (l : level) : nat :=
  match l with
  | STABLE => 0
  | WATCH => 1
  | ELEVATED => 2
  | DANGER => 3
  end.

(** * Properties *)

(** ** Sums *)

Lemma fold_left_Rplus (l : list R) (a : R) :
  fold_left Rplus l a = a + py_sum l.
Proof.
  unfold py_sum. revert a.
  induction l as [|x l IH]; intros a; simpl.
  - lra.
  - rewrite IH, (IH (0 + x)). lra.
Qed.

Lemma py_sum_nil : py_sum [] = 0.
Proof. reflexivity. Qed.

Lemma py_sum_cons (x : R) (l : list R) : py_sum (x :: l) = x + py_sum l.
Proof. unfold py_sum at 1. simpl. rewrite fold_left_Rplus. lra. Qed.

Lemma py_sum_app (l1 l2 : list R) :
  py_sum (l1 ++ l2) = py_sum l1 + py_sum l2.
Proof.
  induction l1 as [|x l1 IH]; simpl.
  - rewrite py_sum_nil. lra.
  - rewrite !py_sum_cons, IH. lra.
Qed.

Lemma py_sum_nonneg (l : list R) :
  Forall (fun x => 0 <= x) l -> 0 <= py_sum l.
Proof.
  induction 1 as [|x l Hx _ IH].
  - rewrite py_sum_nil. lra.
  - rewrite py_sum_cons. lra.
Qed.

(** ** Rounding *)

Lemma Int_part_bounds (y : R) :
  IZR (Int_part y) <= y < IZR (Int_part y) + 1.
Proof. destruct (base_Int_part y). lra. Qed.

Lemma Int_part_unique (y : R) (z : Z) :
  IZR z <= y < IZR z + 1 -> Int_part y = z.
Proof.
  intros [Hl Hu]. unfold Int_part.
  assert (up y = (z + 1)%Z) as ->; [|lia].
  symmetry. apply tech_up; rewrite plus_IZR; lra.
Qed.

Lemma Int_part_mono (x y : R) : x <= y -> (Int_part x <= Int_part y)%Z.
Proof.
  intros Hxy.
  destruct (Int_part_bounds x) as [Hx _].
  destruct (Int_part_bounds y) as [_ Hy].
  assert (IZR (Int_part x) < IZR (Int_part y + 1)) as H
    by (rewrite plus_IZR; lra).
  apply lt_IZR in H. lia.
Qed.

Lemma round_half_even_cases (y : R) :
  round_half_even y = Int_part y /\ y - IZR (Int_part y) <= 1 / 2
  \/ round_half_even y = (Int_part y + 1)%Z /\ 1 / 2 <= y - IZR (Int_part y).
Proof.
  unfold round_half_even.
  destruct (Rlt_dec (y - IZR (Int_part y)) (1 / 2)) as [H1|H1].
  - left. split; [reflexivity | lra].
  - destruct (Rlt_dec (1 / 2) (y - IZR (Int_part y))) as [H2|H2].
    + right. split; [reflexivity | lra].
    + destruct (Z.even (Int_part y)).
      * left. split; [reflexivity | lra].
      * right. split; [reflexivity | lra].
Qed.

Lemma round_half_even_IZR (z : Z) : round_half_even (IZR z) = z.
Proof.
  assert (Int_part (IZR z) = z) as E by (apply Int_part_unique; lra).
  unfold round_half_even. rewrite E.
  destruct (Rlt_dec (IZR z - IZR z) (1 / 2)) as [_|H]; [reflexivity | lra].
Qed.

Lemma round_half_even_near (y : R) :
  - (1 / 2) <= IZR (round_half_even y) - y <= 1 / 2.
Proof.
  destruct (Int_part_bounds y) as [Hl Hu].
  destruct (round_half_even_cases y) as [[-> H]|[-> H]];
    rewrite ?plus_IZR; lra.
Qed.

Lemma round_half_even_mono (x y : R) :
  x <= y -> (round_half_even x <= round_half_even y)%Z.
Proof.
  intros Hxy.
  pose proof (Int_part_mono x y Hxy) as Hf.
  destruct (Z.eq_dec (Int_part x) (Int_part y)) as [E|NE].
  - unfold round_half_even. rewrite E.
    set (f := Int_part y).
    destruct (Rlt_dec (x - IZR f) (1 / 2)) as [X1|X1];
      destruct (Rlt_dec (y - IZR f) (1 / 2)) as [Y1|Y1]; try lia; try lra.
    + destruct (Rlt_dec (1 / 2) (y - IZR f)); [lia|].
      destruct (Z.even f); lia.
    + destruct (Rlt_dec (1 / 2) (x - IZR f)) as [X2|X2];
        destruct (Rlt_dec (1 / 2) (y - IZR f)) as [Y2|Y2]; try lia; try lra.
      destruct (Z.even f); lia.
  - destruct (round_half_even_cases x) as [[-> _]|[-> _]];
      destruct (round_half_even_cases y) as [[-> _]|[-> _]]; lia.
Qed.

Lemma round6_mono (x y : R) : x <= y -> round6 x <= round6 y.
Proof.
  intros Hxy. unfold round6.
  apply Rmult_le_compat_r; [lra|].
  apply IZR_le, round_half_even_mono. lra.
Qed.

(** A number with at most six decimals is left as it is. *)
Lemma round6_decimal (k : Z) : round6 (IZR k / 1000000) = IZR k / 1000000.
Proof.
  unfold round6.
  replace (IZR k / 1000000 * 1000000) with (IZR k) by (field; lra).
  now rewrite round_half_even_IZR.
Qed.

Lemma round6_0 : round6 0 = 0.
Proof.
  replace 0 with (IZR 0 / 1000000) at 1 by lra.
  rewrite round6_decimal. lra.
Qed.

Lemma round6_1 : round6 1 = 1.
Proof.
  replace 1 with (IZR 1000000 / 1000000) at 1 by lra.
  rewrite round6_decimal. lra.
Qed.

Lemma round6_between (a b : Z) (x : R) :
  IZR a / 1000000 <= x <= IZR b / 1000000 ->
  IZR a / 1000000 <= round6 x <= IZR b / 1000000.
Proof.
  intros [Ha Hb].
  rewrite <- (round6_decimal a), <- (round6_decimal b).
  split; now apply round6_mono.
Qed.

Lemma round6_unit (x : R) : 0 <= x <= 1 -> 0 <= round6 x <= 1.
Proof.
  intros H.
  destruct (round6_between 0 1000000 x) as [H0 H1]; lra.
Qed.

Lemma round6_error (x : R) :
  - (5 / 10000000) <= round6 x - x <= 5 / 10000000.
Proof.
  unfold round6.
  pose proof (round_half_even_near (x * 1000000)) as H. lra.
Qed.

(** Evaluation of [round6] at a point that is not a tie. *)
Lemma round6_eval (x : R) (k : Z) :
  IZR k - 1 / 2 < x * 1000000 < IZR k + 1 / 2 ->
  round6 x = IZR k / 1000000.
Proof.
  intros [Hl Hu]. unfold round6. f_equal. f_equal.
  pose proof (round_half_even_near (x * 1000000)) as H.
  set (r := round_half_even (x * 1000000)) in *.
  assert (IZR r < IZR (k + 1)) as H1 by (rewrite plus_IZR; lra).
  assert (IZR (k - 1) < IZR r) as H2 by (rewrite minus_IZR; lra).
  apply lt_IZR in H1, H2. lia.
Qed.

(** ** Concentration index *)

Lemma hhi_fold_fst (total : R) (weights : list (string * R))
    (a : R) (its : list hhi_item) :
  fst (fold_left (hhi_step total) weights (a, its))
  = a + py_sum (map (share_sq total) weights).
Proof.
  revert a its.
  induction weights as [|[k w] ws IH]; intros a its; simpl.
  - rewrite py_sum_nil. lra.
  - rewrite IH, py_sum_cons. unfold share_sq. simpl. lra.
Qed.

Lemma hhi_raw_sum (weights : list (string * R)) :
  hhi_raw weights = py_sum (map (share_sq (total_of weights)) weights).
Proof. unfold hhi_raw. rewrite hhi_fold_fst. fold (total_of weights). lra. Qed.

(** The result on the non-failing path, in terms of the unrounded
    locals. *)
Lemma compute_hhi_structured_ok (weights : list (string * R)) :
  weights <> [] -> total_of weights <> 0 ->
  compute_hhi_structured weights
  = HhiOk (round6 (hhi_raw weights)) (round6 (hhi_normalized_raw weights))
          (List.length weights) (total_of weights)
          (snd (fold_left (hhi_step (total_of weights)) weights (0, []))).
Proof.
  intros Hne Ht. unfold compute_hhi_structured.
  destruct weights as [|kw ws]; [congruence|].
  fold (total_of (kw :: ws)).
  destruct (Req_dec_T (total_of (kw :: ws)) 0) as [E|_]; [contradiction|].
  unfold hhi_normalized_raw, hhi_raw. fold (total_of (kw :: ws)).
  destruct (fold_left (hhi_step (total_of (kw :: ws))) (kw :: ws) (0, []))
    as [h its].
  reflexivity.
Qed.

Lemma sum_shares (total : R) (l : list R) :
  py_sum (map (fun w => w / total) l) = py_sum l / total.
Proof.
  induction l as [|x l IH]; simpl.
  - rewrite py_sum_nil. lra.
  - rewrite !py_sum_cons, IH. lra.
Qed.










Lemma total_of_equal (c : R) (weights : list (string * R)) :
  Forall (fun kw => snd kw = c) weights ->
  total_of weights = INR (List.length weights) * c.
Proof.
  unfold total_of.
  induction 1 as [|kw ws Hkw _ IH].
  - simpl. rewrite py_sum_nil. lra.
  - cbn [map List.length]. rewrite py_sum_cons, IH, S_INR, Hkw. lra.
Qed.

Lemma share_sq_equal (c total : R) (weights : list (string * R)) :
  Forall (fun kw => snd kw = c) weights ->
  py_sum (map (share_sq total) weights)
  = INR (List.length weights) * ((c / total) * (c / total)).
Proof.
  induction 1 as [|kw ws Hkw _ IH].
  - simpl. rewrite py_sum_nil. lra.
  - cbn [map List.length]. rewrite py_sum_cons, IH, S_INR.
    unfold share_sq. rewrite Hkw. lra.
Qed.

Lemma hhi_raw_equal (c : R) (weights : list (string * R)) :
  Forall (fun kw => snd kw = c) weights ->
  total_of weights <> 0 ->
  hhi_raw weights = 1 / INR (List.length weights).
Proof.
  intros Heq Ht. rewrite hhi_raw_sum, (share_sq_equal c) by assumption.
  pose proof (total_of_equal c weights Heq) as ET.
  assert (INR (List.length weights) <> 0 /\ c <> 0) as [Hn Hc].
  { split; intros E; rewrite E in ET; apply Ht; rewrite ET; lra. }
  rewrite ET. field. split; assumption.
Qed.

Lemma hhi_raw_single (k : string) (w : R) :
  w <> 0 -> hhi_raw [(k, w)] = 1.
Proof.
  intros Hw. rewrite (hhi_raw_equal w).
  - simpl. lra.
  - repeat constructor.
  - unfold total_of. simpl. rewrite py_sum_cons, py_sum_nil. lra.
Qed.

(** The concentration computation fails exactly on an empty mapping
    and on a total that is zero. *)
Lemma hhi_error_iff (weights : list (string * R)) :
  hhi_error_field (compute_hhi_structured weights) <> None
  <-> weights = [] \/ total_of weights = 0.
Proof.
  unfold compute_hhi_structured. fold (total_of weights).
  destruct weights as [|kw ws].
  - simpl. split; [now left | discriminate].
  - destruct (Req_dec_T (total_of (kw :: ws)) 0) as [E|NE].
    + simpl. split; [now right | discriminate].
    + destruct (fold_left _ _ _) as [h its]. simpl.
      split; [congruence | intros [H|H]; [discriminate | contradiction]].
Qed.

Lemma hhi_error_no_value (weights : list (string * R)) :
  hhi_error_field (compute_hhi_structured weights) <> None ->
  hhi_field (compute_hhi_structured weights) = None.
Proof.
  destruct (compute_hhi_structured weights); simpl; congruence.
Qed.

Lemma total_of_nonneg (weights : list (string * R)) :
  Forall (fun kw => 0 <= snd kw) weights -> 0 <= total_of weights.
Proof.
  intros H. apply py_sum_nonneg.
  apply Forall_forall. intros y Hy.
  apply in_map_iff in Hy as [kw [<- Hkw]].
  rewrite Forall_forall in H. now apply H.
Qed.

(** On the data model of the specification (weights are non-negative)
    "total is zero" and "total is not positive" coincide. *)
Lemma hhi_error_iff_nonneg (weights : list (string * R)) :
  Forall (fun kw => 0 <= snd kw) weights ->
  (hhi_error_field (compute_hhi_structured weights) <> None
   <-> weights = [] \/ ~ 0 < total_of weights).
Proof.
  intros Hnn. rewrite hhi_error_iff.
  pose proof (total_of_nonneg weights Hnn).
  split; intros [H1|H1]; auto; right; lra.
Qed.

(** [C6], as amended.  The concentration computation returns the error
    shape (an error message and no hhi) exactly when the mapping is
    empty or the sum of the weights equals 0; for every mapping whose
    sum is > 0 the result is a ConcentrationResult without an error
    field. *)
Theorem concentration_error_exactly_empty_or_zero_total
    (weights : list (string * R)) :
  (hhi_error_field (compute_hhi_structured weights) <> None
   /\ hhi_field (compute_hhi_structured weights) = None
   <-> weights = [] \/ total_of weights = 0)
  /\ (0 < total_of weights ->
      hhi_error_field (compute_hhi_structured weights) = None
      /\ exists h hn items,
           compute_hhi_structured weights
           = HhiOk h hn (List.length weights) (total_of weights) items).
Proof.
  split.
  - split.
    + intros [H _]. now apply hhi_error_iff.
    + intros H. apply hhi_error_iff in H.
      split; [assumption | now apply hhi_error_no_value].
  - intros Ht.
    assert (weights <> []) as Hne.
    { intros ->. unfold total_of in Ht. simpl in Ht.
      rewrite py_sum_nil in Ht. lra. }
    rewrite (compute_hhi_structured_ok weights Hne) by lra. simpl.
    split; [reflexivity | eauto].
Qed.

(** [C6], as stated, fails on a mapping whose total is negative: the
    sum is not > 0, yet no error is returned and an hhi is. *)
Lemma concentration_negative_total_no_error :
  let w := [("A", -1)] in
  ~ 0 < total_of w
  /\ w <> []
  /\ hhi_error_field (compute_hhi_structured w) = None
  /\ hhi_field (compute_hhi_structured w) = Some 1.
Proof.
  intros w.
  assert (total_of w = -1) as ET.
  { unfold total_of, w. simpl. rewrite py_sum_cons, py_sum_nil. lra. }
  assert (w <> []) as Hne by discriminate.
  rewrite (compute_hhi_structured_ok w Hne) by lra. simpl.
  repeat split; try assumption; try lra.
  unfold w. rewrite hhi_raw_single by lra. now rewrite round6_1.
Qed.



Example hhi_example_50_50 :
  exists items,
    compute_hhi_structured [("A", 50); ("B", 50)] = HhiOk 0.5 0 2 100 items.
Proof.
  set (w := [("A", 50); ("B", 50)]).
  assert (total_of w = 100) as ET.
  { unfold total_of, w. simpl. rewrite !py_sum_cons, py_sum_nil. lra. }
  assert (w <> []) as Hne by discriminate.
  rewrite (compute_hhi_structured_ok w Hne) by lra.
  assert (hhi_raw w = 1 / 2) as EH.
  { rewrite (hhi_raw_equal 50); [simpl; lra | repeat constructor | lra]. }
  assert (hhi_normalized_raw w = 0) as EN.
  { unfold hhi_normalized_raw. rewrite EH. simpl. lra. }
  rewrite EH, EN, ET, round6_0.
  rewrite (round6_eval (1 / 2) 500000) by lra.
  eexists. f_equal. lra.
Qed.


(** ** Certified bounds on [exp] and [ln] *)

Lemma fx_one_pos : 0 < IZR fx_one.
Proof. apply IZR_lt. reflexivity. Qed.

Lemma IZR_div_floor (a b : Z) :
  (0 < b)%Z -> IZR (a / b) <= IZR a / IZR b.
Proof.
  intros Hb.
  assert (0 < IZR b) as Hb' by now apply IZR_lt.
  apply (Rmult_le_reg_r (IZR b)); [assumption|].
  replace (IZR a / IZR b * IZR b) with (IZR a) by (field; lra).
  rewrite <- mult_IZR. apply IZR_le.
  rewrite Z.mul_comm. now apply Z.mul_div_le.
Qed.

Lemma fx_sq_iter_sound (k : nat) : forall (c : Z) (a : R),
  (0 <= c)%Z -> IZR c / IZR fx_one <= a ->
  IZR (fx_sq_iter k c) / IZR fx_one <= a ^ (2 ^ k).
Proof.
  pose proof fx_one_pos as HD.
  induction k as [|k IH]; intros c a Hc Ha.
  - simpl. lra.
  - cbn [fx_sq_iter].
    replace (a ^ (2 ^ S k)) with ((a * a) ^ (2 ^ k)).
    + apply IH.
      * apply Z.div_pos; [nia | reflexivity].
      * assert (0 <= IZR c) as Hc' by now apply IZR_le.
        assert (0 <= IZR c / IZR fx_one) as H0.
        { apply Rmult_le_pos; [assumption|]. left. now apply Rinv_0_lt_compat. }
        pose proof (IZR_div_floor (c * c) fx_one eq_refl) as Hf.
        rewrite mult_IZR in Hf.
        apply Rle_trans with (IZR c / IZR fx_one * (IZR c / IZR fx_one)).
        -- apply (Rmult_le_compat_r (/ IZR fx_one)) in Hf.
           2:{ left. now apply Rinv_0_lt_compat. }
           eapply Rle_trans; [exact Hf|]. right. field. lra.
        -- apply Rmult_le_compat; assumption.
    + replace (a * a) with (a ^ 2) by (simpl; ring).
      rewrite <- pow_mult. reflexivity.
Qed.

Lemma exp_pow_nat (n : nat) (y : R) : exp (INR n * y) = exp y ^ n.
Proof.
  induction n as [|n IH].
  - simpl. rewrite Rmult_0_l. apply exp_0.
  - rewrite S_INR, Rmult_plus_distr_r, Rmult_1_l, exp_plus, IH. simpl. ring.
Qed.

Lemma exp_pow_lower (n : nat) (x : R) :
  (0 < n)%nat -> - INR n <= x -> (1 + x / INR n) ^ n <= exp x.
Proof.
  intros Hn Hx.
  assert (0 < INR n) as Hn' by now apply lt_0_INR.
  replace (exp x) with (exp (x / INR n) ^ n).
  - apply pow_incr. split.
    + assert (-1 <= x / INR n); [|lra].
      apply (Rmult_le_reg_r (INR n)); [assumption|].
      replace (x / INR n * INR n) with x by (field; lra). lra.
    + apply exp_ineq1_le.
  - rewrite <- exp_pow_nat. f_equal. field. lra.
Qed.

Lemma exp_lb_sound (k : nat) (p q : Z) :
  (0 < q)%Z -> (0 <= q * 2 ^ Z.of_nat k + p)%Z ->
  IZR (exp_lb k p q) / IZR fx_one <= exp (IZR p / IZR q).
Proof.
  intros Hq Hp. unfold exp_lb.
  set (n := (q * 2 ^ Z.of_nat k)%Z) in *.
  assert (0 < n)%Z as Hn.
  { unfold n. apply Z.mul_pos_pos; [lia|]. apply Z.pow_pos_nonneg; lia. }
  assert (0 < IZR n) as Hn' by now apply IZR_lt.
  assert (0 < IZR q) as Hq' by now apply IZR_lt.
  pose proof fx_one_pos as HD.
  assert (IZR n = IZR q * INR (2 ^ k)) as En.
  { unfold n. rewrite mult_IZR. f_equal.
    rewrite INR_IZR_INZ. f_equal. rewrite Nat2Z.inj_pow. reflexivity. }
  assert (0 < INR (2 ^ k)) as H2k.
  { apply lt_0_INR. apply Nat.neq_0_lt_0. apply Nat.pow_nonzero. lia. }
  eapply Rle_trans.
  - apply (fx_sq_iter_sound k _ (1 + IZR p / IZR q / INR (2 ^ k))).
    + apply Z.div_pos; [|assumption].
      apply Z.mul_nonneg_nonneg; [unfold fx_one; lia | lia].
    + pose proof (IZR_div_floor (fx_one * (n + p)) n Hn) as Hf.
      rewrite mult_IZR, plus_IZR in Hf.
      apply (Rmult_le_compat_r (/ IZR fx_one)) in Hf.
      2:{ left. now apply Rinv_0_lt_compat. }
      eapply Rle_trans; [exact Hf|]. right. rewrite En. field. lra.
  - apply exp_pow_lower.
    + apply Nat.neq_0_lt_0. apply Nat.pow_nonzero. lia.
    + apply (Rmult_le_reg_r (IZR q)); [assumption|].
      replace (IZR p / IZR q * IZR q) with (IZR p) by (field; lra).
      apply IZR_le in Hp. rewrite plus_IZR, En in Hp. lra.
Qed.

Lemma exp_ge_rational (k : nat) (p q a b : Z) :
  (0 < q)%Z -> (0 <= q * 2 ^ Z.of_nat k + p)%Z -> (0 < b)%Z ->
  (a * fx_one <= exp_lb k p q * b)%Z ->
  IZR a / IZR b <= exp (IZR p / IZR q).
Proof.
  intros Hq Hp Hb H.
  eapply Rle_trans; [|apply (exp_lb_sound k p q Hq Hp)].
  pose proof fx_one_pos as HD.
  assert (0 < IZR b) as Hb' by now apply IZR_lt.
  apply IZR_le in H. rewrite !mult_IZR in H.
  apply (Rmult_le_reg_r (IZR b * IZR fx_one)); [nra|].
  replace (IZR a / IZR b * (IZR b * IZR fx_one)) with (IZR a * IZR fx_one)
    by (field; lra).
  replace (IZR (exp_lb k p q) / IZR fx_one * (IZR b * IZR fx_one))
    with (IZR (exp_lb k p q) * IZR b) by (field; lra).
  exact H.
Qed.


Lemma ln_le_of_exp (z y : R) : 0 < z -> z <= exp y -> ln z <= y.
Proof.
  intros Hz [H|H].
  - left. rewrite <- (ln_exp y). now apply ln_increasing.
  - right. rewrite H. apply ln_exp.
Qed.

Lemma ln_ge_of_exp (z y : R) : 0 < z -> / z <= exp (- y) -> y <= ln z.
Proof.
  intros Hz H.
  assert (exp y <= z) as H'.
  { rewrite exp_Ropp in H.
    pose proof (exp_pos y) as Hy.
    apply (Rmult_le_compat_l (z * exp y)) in H; [|nra].
    replace (z * exp y * / z) with (exp y) in H by (field; lra).
    replace (z * exp y * / exp y) with z in H by (field; lra).
    exact H. }
  destruct H' as [H'|H'].
  - left. rewrite <- (ln_exp y) at 1.
    apply ln_increasing; [apply exp_pos | assumption].
  - right. rewrite <- H'. symmetry. apply ln_exp.
Qed.

Ltac exp_bound k :=
  apply (exp_ge_rational k); try reflexivity; vm_compute; discriminate.

Lemma ln_2_bounds : 6931470 / 10000000 <= ln 2 <= 6931473 / 10000000.
Proof.
  split.
  - apply ln_ge_of_exp; [lra|].
    replace (/ 2) with (IZR 1 / IZR 2) by lra.
    replace (- (6931470 / 10000000)) with (IZR (-6931470) / IZR 10000000)
      by lra.
    exp_bound 30%nat.
  - apply ln_le_of_exp; [lra|].
    replace 2 with (IZR 2 / IZR 1) at 1 by lra.
    exp_bound 30%nat.
Qed.

Lemma ln_10_bounds : 23025850 / 10000000 <= ln 10 <= 23025852 / 10000000.
Proof.
  split.
  - apply ln_ge_of_exp; [lra|].
    replace (/ 10) with (IZR 1 / IZR 10) by lra.
    replace (- (23025850 / 10000000)) with (IZR (-23025850) / IZR 10000000)
      by lra.
    exp_bound 30%nat.
  - apply ln_le_of_exp; [lra|].
    replace 10 with (IZR 10 / IZR 1) at 1 by lra.
    exp_bound 30%nat.
Qed.

Lemma log10_2_bounds : 3010299 / 10000000 <= log10 2 <= 3010301 / 10000000.
Proof.
  unfold log10.
  destruct ln_2_bounds as [L2 U2]. destruct ln_10_bounds as [L10 U10].
  assert (0 < ln 10) as H10 by lra.
  split.
  - apply (Rmult_le_reg_r (ln 10)); [assumption|].
    replace (ln 2 / ln 10 * ln 10) with (ln 2) by (field; lra). nra.
  - apply (Rmult_le_reg_r (ln 10)); [assumption|].
    replace (ln 2 / ln 10 * ln 10) with (ln 2) by (field; lra). nra.
Qed.

(** [exp(-log10(2))], the quantity behind [hmi_normalized] at hmi = 1. *)
Lemma exp_neg_log10_2_bounds :
  740055 / 1000000 <= exp (- log10 2) <= 740057 / 1000000.
Proof.
  destruct log10_2_bounds as [L U].
  split.
  - apply Rle_trans with (exp (- (3010301 / 10000000))).
    + replace (- (3010301 / 10000000)) with (IZR (-3010301) / IZR 10000000)
        by lra.
      replace (740055 / 1000000) with (IZR 740055 / IZR 1000000) by lra.
      exp_bound 30%nat.
    + destruct U as [U|U].
      * left. apply exp_increasing. lra.
      * right. now rewrite U.
  - assert (1351249 / 1000000 <= exp (log10 2)) as H.
    { apply Rle_trans with (exp (3010299 / 10000000)).
      - replace (3010299 / 10000000) with (IZR 3010299 / IZR 10000000) by lra.
        replace (1351249 / 1000000) with (IZR 1351249 / IZR 1000000) by lra.
        exp_bound 30%nat.
      - destruct L as [L|L].
        + left. apply exp_increasing. lra.
        + right. now rewrite L. }
    rewrite exp_Ropp.
    pose proof (exp_pos (log10 2)) as Hp.
    apply (Rmult_le_reg_r (exp (log10 2))); [assumption|].
    rewrite Rinv_l by lra. nra.
Qed.

(** ** Mispricing index *)

(** The [try] block of [compute_hmi] never takes its [except] branch:
    the argument of [log10] is at least 1. *)
Lemma hmi_norm_try_ok (h : R) :
  hmi_norm_try h
  = Ok (Rmax 0 (Rmin 1 (1 - exp (- log10 (Rmin (Rmax h 0) 1000000 + 1))))).
Proof.
  unfold hmi_norm_try, py_log10.
  assert (0 <= Rmin (Rmax h 0) 1000000) as H.
  { apply Rmin_glb; [apply Rmax_r | lra]. }
  destruct (Rlt_dec 0 (Rmin (Rmax h 0) 1000000 + 1)) as [_|N]; [|lra].
  reflexivity.
Qed.

Lemma compute_hmi_normalized (m p : R) :
  0 < p ->
  hmi_normalized (compute_hmi m (Some p))
  = Rmax 0 (Rmin 1 (1 - exp (- log10 (Rmin (Rmax (m / p) 0) 1000000 + 1)))).
Proof.
  intros Hp. unfold compute_hmi.
  destruct (Rle_dec p 0) as [N|_]; [lra|].
  simpl. now rewrite hmi_norm_try_ok.
Qed.

Lemma hmi_normalized_unit (m : R) (op : option R) :
  0 <= hmi_normalized (compute_hmi m op) <= 1.
Proof.
  unfold compute_hmi.
  destruct op as [p|]; [|simpl; lra].
  destruct (Rle_dec p 0); [simpl; lra|].
  simpl. rewrite hmi_norm_try_ok. simpl.
  split; [apply Rmax_l|].
  apply Rmax_lub; [lra | apply Rmin_l].
Qed.

(** [C9].  [compute_hmi] is a total function (no exception); its result
    carries the error indicator, with hmi_normalized = 0 and no hmi,
    exactly when objective_probability is absent or <= 0, and carries
    no error indicator when objective_probability > 0. *)
Theorem compute_hmi_error_iff (market_expectation : R)
    (objective_probability : option R) :
  let r := compute_hmi market_expectation objective_probability in
  (hope_error r <> None
   <-> objective_probability = None
       \/ exists p, objective_probability = Some p /\ p <= 0)
  /\ (hope_error r <> None -> hmi_normalized r = 0 /\ hmi r = None)
  /\ (forall p, objective_probability = Some p -> 0 < p ->
      hope_error r = None /\ hmi r = Some (market_expectation / p)).
Proof.
  unfold compute_hmi.
  destruct objective_probability as [p|].
  - destruct (Rle_dec p 0) as [Hp|Hp]; simpl.
    + split; [|split].
      * split; [intros _; right; eauto | discriminate].
      * auto.
      * intros q [= <-] Hq. lra.
    + split; [|split].
      * split; [congruence|].
        intros [H|[q [[= <-] Hq]]]; [discriminate | contradiction].
      * congruence.
      * intros q [= <-] _. auto.
  - simpl. split; [|split].
    + split; [now left | discriminate].
    + auto.
    + discriminate.
Qed.

Lemma compute_hmi_equal_ratio (p : R) :
  0 < p -> hmi (compute_hmi p (Some p)) = Some 1.
Proof.
  intros Hp. unfold compute_hmi. destruct (Rle_dec p 0); [lra|]. simpl.
  f_equal. field. lra.
Qed.

Lemma compute_hmi_equal_norm (p : R) :
  0 < p -> hmi_normalized (compute_hmi p (Some p)) = 1 - exp (- log10 2).
Proof.
  intros Hp. rewrite compute_hmi_normalized by assumption.
  replace (p / p) with 1 by (field; lra).
  rewrite (Rmax_left 1 0), (Rmin_left 1 1000000) by lra.
  replace (1 + 1) with 2 by lra.
  pose proof exp_neg_log10_2_bounds as B.
  rewrite Rmin_right, Rmax_right by lra. reflexivity.
Qed.

(** [C5], as amended.  For every positive p, [compute_hmi(p, p)] returns
    hmi = 1 and hmi_normalized = 1 - e^(-log10 2), about 0.25994
    (between 0.25994 and 0.25995); hmi_normalized is
    clamp(1 - e^(-log10(hmi_clipped + 1)), 0, 1) with hmi clipped to
    [0, 1e6]. *)
Theorem compute_hmi_equal_inputs (p : R) :
  0 < p ->
  let r := compute_hmi p (Some p) in
  hmi r = Some 1
  /\ hope_error r = None
  /\ hmi_normalized r
     = Rmax 0 (Rmin 1 (1 - exp (- log10 (Rmin (Rmax 1 0) 1000000 + 1))))
  /\ hmi_normalized r = 1 - exp (- log10 2)
  /\ 25994 / 100000 < hmi_normalized r < 25995 / 100000.
Proof.
  intros Hp r.
  pose proof (compute_hmi_equal_norm p Hp) as EN. fold r in EN.
  pose proof exp_neg_log10_2_bounds as B.
  repeat split.
  - now apply compute_hmi_equal_ratio.
  - unfold r, compute_hmi. destruct (Rle_dec p 0); [lra|]. reflexivity.
  - unfold r. rewrite compute_hmi_normalized by assumption.
    replace (p / p) with 1 by (field; lra). reflexivity.
  - exact EN.
  - rewrite EN. lra.
  - rewrite EN. lra.
Qed.

Lemma compute_hmi_equal_inputs_witness :
  let r := compute_hmi (1 / 2) (Some (1 / 2)) in
  hmi r = Some 1
  /\ hope_error r = None
  /\ hmi_normalized r
     = Rmax 0 (Rmin 1 (1 - exp (- log10 (Rmin (Rmax 1 0) 1000000 + 1))))
  /\ hmi_normalized r = 1 - exp (- log10 2)
  /\ 25994 / 100000 < hmi_normalized r < 25995 / 100000.
Proof. apply (compute_hmi_equal_inputs (1 / 2)). lra. Defined.

(** [C5], as stated, gives 0.335 for hmi_normalized; at
    market_expectation = objective_probability = 0.5 the code returns a
    value below 0.26, more than 0.075 away. *)
Lemma compute_hmi_equal_inputs_not_0335 :
  let r := compute_hmi (1 / 2) (Some (1 / 2)) in
  hmi r = Some 1 /\ hmi_normalized r < 335 / 1000 - 75 / 1000.
Proof.
  intros r. unfold r.
  rewrite compute_hmi_equal_ratio, compute_hmi_equal_norm by lra.
  pose proof exp_neg_log10_2_bounds as B.
  split; [reflexivity | lra].
Qed.

(** ** Chaotic risk layer *)

Lemma bind_Ok {A B : Type} (c : outcome A) (k : A -> outcome B) (b : B) :
  bind c k = Ok b -> exists a, c = Ok a /\ k a = Ok b.
Proof. destruct c as [a|e]; simpl; [eauto | discriminate]. Qed.

Lemma _norm01_unit (x : R) : 0 <= _norm01 x <= 1.
Proof.
  unfold _norm01. split; [apply Rmax_l|].
  apply Rmax_lub; [lra | apply Rmin_l].
Qed.

Lemma _norm01_le (x c : R) : 0 <= c -> x <= c -> _norm01 x <= c.
Proof.
  intros Hc Hx. unfold _norm01.
  apply Rmax_lub; [assumption|].
  eapply Rle_trans; [apply Rmin_r | assumption].
Qed.

Lemma nur_amp_range (s : R) : 1 <= nur_amp_of s <= 2.
Proof. unfold nur_amp_of. pose proof (_norm01_unit s). lra. Qed.

Lemma rsz_damp_range (s : R) : 0.5 <= rsz_damp_of s <= 1.2.
Proof. unfold rsz_damp_of. pose proof (_norm01_unit s). lra. Qed.

(** The arctan compression stays strictly inside (-1, 1), also when the
    [except] branch supplies 0. *)
Lemma compressed_of_bound (total_energy modulated : R) :
  -1 < compressed_of total_energy modulated < 1.
Proof.
  unfold compressed_of, compressed_try, py_log10, py_div.
  destruct (Rlt_dec 0 (total_energy + 1.0)); simpl; [|lra].
  destruct (Req_dec_T _ 0); simpl; [lra|].
  set (q := modulated / _).
  pose proof (atan_bound q) as [Hl Hu].
  pose proof PI_RGT_0 as Hpi.
  assert (0 < PI / 2) as Hh by lra.
  split.
  - apply (Rmult_lt_reg_r (PI / 2)); [assumption|].
    replace (atan q / (PI / 2) * (PI / 2)) with (atan q) by (field; lra). lra.
  - apply (Rmult_lt_reg_r (PI / 2)); [assumption|].
    replace (atan q / (PI / 2) * (PI / 2)) with (atan q) by (field; lra). lra.
Qed.

Section ChaoticProperties.

Variable float_of_str : string -> option R.
Variable self : config.

Lemma cr_finish_scalar_unit (st : loop_state) (nur rsz : pyval) :
  0 <= cr_scalar (cr_finish float_of_str self st nur rsz) <= 1.
Proof. simpl. apply round6_unit, _norm01_unit. Qed.

Lemma cr_finish_scalar_dampen (st : loop_state) (nur rsz : pyval) :
  global_dampen self = 0.9 ->
  cr_scalar (cr_finish float_of_str self st nur rsz) <= 0.9.
Proof.
  intros Hg. simpl. rewrite Hg.
  replace 0.9 with (IZR 900000 / 1000000) at 2 by lra.
  rewrite <- round6_decimal. apply round6_mono.
  replace (IZR 900000 / 1000000) with 0.9 by lra.
  apply _norm01_le; [lra|].
  match goal with
  | |- ?c * _ <= _ => assert (c < 1) by apply compressed_of_bound
  end.
  lra.
Qed.

Lemma compute_from_provocations_inv (provocations : list pydict)
    (nur rsz : pyval) (r : cr_result) :
  compute_from_provocations float_of_str self provocations nur rsz = Ok r ->
  provocations = []
  /\ r = {| cr_scalar := 0.0; components := []; flags := [] |}
  \/ provocations <> []
     /\ exists st,
          prov_loop float_of_str self loop_init provocations = Ok st
          /\ r = cr_finish float_of_str self st nur rsz.
Proof.
  unfold compute_from_provocations.
  destruct provocations as [|p ps].
  - intros [= <-]. now left.
  - intros H. apply bind_Ok in H as [st [Hst [= <-]]].
    right. split; [discriminate | eauto].
Qed.

Lemma compute_cr_scalar_dampen (provocations : list pydict)
    (nur rsz : pyval) (r : cr_result) :
  global_dampen self = 0.9 ->
  compute_from_provocations float_of_str self provocations nur rsz = Ok r ->
  cr_scalar r <= 0.9.
Proof.
  intros Hg H.
  apply compute_from_provocations_inv in H as [[_ ->]|[_ [st [_ ->]]]].
  - simpl. lra.
  - now apply cr_finish_scalar_dampen.
Qed.

(** A signal that carries its primary field as a number is read as
    that number. *)
Lemma signal_field_primary (d : pydict) (k1 k2 : string) (x : R) :
  dict_get d k1 = Some (VNum x) ->
  signal_field float_of_str (VDict d) k1 k2 = x.
Proof.
  intros H. unfold signal_field, py_or.
  destruct d as [|kv d']; [discriminate|].
  cbn [truthy]. unfold get_or at 1. rewrite H. reflexivity.
Qed.

(** Without the primary field the secondary one is read. *)
Lemma signal_field_secondary (d : pydict) (k1 k2 : string) (x : R) :
  dict_get d k1 = None -> dict_get d k2 = Some (VNum x) ->
  signal_field float_of_str (VDict d) k1 k2 = x.
Proof.
  intros H1 H2. unfold signal_field, py_or at 1.
  destruct d as [|kv d']; [discriminate|].
  cbn [truthy]. unfold get_or. rewrite H1, H2.
  unfold py_or, truthy, Reqb.
  destruct (Req_dec_T x 0) as [->|_]; reflexivity.
Qed.

(** Without both fields, and on an absent or empty signal, the value
    is 0. *)
Lemma signal_field_absent (d : pydict) (k1 k2 : string) :
  dict_get d k1 = None -> dict_get d k2 = None ->
  signal_field float_of_str (VDict d) k1 k2 = 0.
Proof.
  intros H1 H2. unfold signal_field.
  assert (py_or (VDict d) (VDict []) = VDict d) as ->.
  { unfold py_or. destruct d; reflexivity. }
  unfold get_or. rewrite H1, H2.
  unfold py_or, truthy, Reqb.
  destruct (Req_dec_T 0 0) as [_|N]; [reflexivity | contradiction].
Qed.

End ChaoticProperties.

(** [C8].  On the empty provocation sequence, whatever the macro signals
    and the configuration, [compute_from_provocations] returns at once
    cr_scalar = 0.0, an empty components map and an empty flags list. *)
Theorem compute_from_provocations_empty
    (float_of_str : string -> option R) (self : config) (nur rsz : pyval) :
  exists r,
    compute_from_provocations float_of_str self [] nur rsz = Ok r
    /\ cr_scalar r = 0 /\ components r = [] /\ flags r = [].
Proof.
  eexists. split; [reflexivity|]. simpl. repeat split. lra.
Qed.

(** [C3].  Whenever [compute_from_provocations] returns, its cr_scalar
    lies in [0, 1]; the modulation factors are
    nur_amp = 1 + clamp(severity, 0, 1), in [1, 2], and
    rsz_damp = 1.2 - clamp(stability, 0, 1) * 0.7, in [0.5, 1.2], where
    severity is the severity_score of nur and stability the
    stability_score of rsz when these are numbers (without them the
    code reads severity and action_weight, and 0 when these are missing
    too); on a non-empty provocation list the factors are reported,
    rounded, in the components map. *)
Theorem cr_scalar_and_modulation_ranges
    (float_of_str : string -> option R) (self : config)
    (provocations : list pydict) (nur rsz : pyval) (r : cr_result) :
  compute_from_provocations float_of_str self provocations nur rsz = Ok r ->
  let severity := nur_severity_of float_of_str nur in
  let stability := rsz_stability_of float_of_str rsz in
  0 <= cr_scalar r <= 1
  /\ nur_amp_of severity = 1 + Rmax 0 (Rmin 1 severity)
  /\ 1 <= nur_amp_of severity <= 2
  /\ rsz_damp_of stability = 1.2 - Rmax 0 (Rmin 1 stability) * 0.7
  /\ 0.5 <= rsz_damp_of stability <= 1.2
  /\ (forall d x, nur = VDict d ->
        dict_get d "severity_score" = Some (VNum x) -> severity = x)
  /\ (forall d x, rsz = VDict d ->
        dict_get d "stability_score" = Some (VNum x) -> stability = x)
  /\ (forall d x, nur = VDict d ->
        dict_get d "severity_score" = None ->
        dict_get d "severity" = Some (VNum x) -> severity = x)
  /\ (forall d x, rsz = VDict d ->
        dict_get d "stability_score" = None ->
        dict_get d "action_weight" = Some (VNum x) -> stability = x)
  /\ (forall d, nur = VDict d ->
        dict_get d "severity_score" = None ->
        dict_get d "severity" = None -> severity = 0)
  /\ (forall d, rsz = VDict d ->
        dict_get d "stability_score" = None ->
        dict_get d "action_weight" = None -> stability = 0)
  /\ (provocations <> [] ->
      In ("nur_amp", round6 (nur_amp_of severity)) (components r)
      /\ In ("rsz_damp", round6 (rsz_damp_of stability)) (components r)).
Proof.
  intros H severity stability.
  repeat match goal with |- _ /\ _ => split end.
  - apply compute_from_provocations_inv in H
      as [[_ ->]|[_ [st [_ ->]]]].
    + simpl. lra.
    + apply cr_finish_scalar_unit.
  - apply compute_from_provocations_inv in H
      as [[_ ->]|[_ [st [_ ->]]]].
    + simpl. lra.
    + apply cr_finish_scalar_unit.
  - unfold nur_amp_of, _norm01. lra.
  - apply nur_amp_range.
  - apply nur_amp_range.
  - unfold rsz_damp_of, _norm01. lra.
  - apply rsz_damp_range.
  - apply rsz_damp_range.
  - intros d x -> Hd. now apply signal_field_primary.
  - intros d x -> Hd. now apply signal_field_primary.
  - intros d x -> H1 H2. now apply signal_field_secondary.
  - intros d x -> H1 H2. now apply signal_field_secondary.
  - intros d -> H1 H2. now apply signal_field_absent.
  - intros d -> H1 H2. now apply signal_field_absent.
  - intros Hne.
    apply compute_from_provocations_inv in H
      as [[-> _]|[_ [st [_ ->]]]]; [congruence|].
    simpl. split; auto 10.
Qed.

(** *** Evaluation on a sample provocation *)

Lemma py_or_num (x : R) (d : pyval) : x <> 0 -> py_or (VNum x) d = VNum x.
Proof.
  intros Hx. unfold py_or, truthy, Reqb.
  destruct (Req_dec_T x 0); [contradiction | reflexivity].
Qed.

Lemma default_config_fields :
  w_institutional (ChaoticRisk None) = 1.5
  /\ w_individual (ChaoticRisk None) = 1.0
  /\ w_vector_coherence (ChaoticRisk None) = 1.0
  /\ w_confidence (ChaoticRisk None) = 1.0
  /\ global_dampen (ChaoticRisk None) = 0.9.
Proof. repeat split. Qed.

Lemma sample_loop :
  prov_loop float_of_str_none (ChaoticRisk None) loop_init [sample_provocation]
  = Ok sample_state.
Proof.
  unfold prov_loop, prov_step, sample_provocation, get_or.
  cbn [dict_get String.eqb Ascii.eqb Bool.eqb].
  rewrite !py_or_num by lra.
  cbn.
  reflexivity.
Qed.

Lemma sample_compute :
  compute_from_provocations float_of_str_none (ChaoticRisk None)
    [sample_provocation] sample_nur sample_rsz
  = Ok (cr_finish float_of_str_none (ChaoticRisk None) sample_state
          sample_nur sample_rsz).
Proof.
  unfold compute_from_provocations. now rewrite sample_loop.
Qed.

Lemma cr_scalar_and_modulation_ranges_witness :
  let r := cr_finish float_of_str_none (ChaoticRisk None) sample_state
             sample_nur sample_rsz in
  let severity := nur_severity_of float_of_str_none sample_nur in
  let stability := rsz_stability_of float_of_str_none sample_rsz in
  0 <= cr_scalar r <= 1
  /\ nur_amp_of severity = 1 + Rmax 0 (Rmin 1 severity)
  /\ 1 <= nur_amp_of severity <= 2
  /\ rsz_damp_of stability = 1.2 - Rmax 0 (Rmin 1 stability) * 0.7
  /\ 0.5 <= rsz_damp_of stability <= 1.2
  /\ (forall d x, sample_nur = VDict d ->
        dict_get d "severity_score" = Some (VNum x) -> severity = x)
  /\ (forall d x, sample_rsz = VDict d ->
        dict_get d "stability_score" = Some (VNum x) -> stability = x)
  /\ (forall d x, sample_nur = VDict d ->
        dict_get d "severity_score" = None ->
        dict_get d "severity" = Some (VNum x) -> severity = x)
  /\ (forall d x, sample_rsz = VDict d ->
        dict_get d "stability_score" = None ->
        dict_get d "action_weight" = Some (VNum x) -> stability = x)
  /\ (forall d, sample_nur = VDict d ->
        dict_get d "severity_score" = None ->
        dict_get d "severity" = None -> severity = 0)
  /\ (forall d, sample_rsz = VDict d ->
        dict_get d "stability_score" = None ->
        dict_get d "action_weight" = None -> stability = 0)
  /\ ([sample_provocation] <> [] ->
      In ("nur_amp", round6 (nur_amp_of severity)) (components r)
      /\ In ("rsz_damp", round6 (rsz_damp_of stability)) (components r)).
Proof.
  exact (cr_scalar_and_modulation_ranges float_of_str_none (ChaoticRisk None)
           [sample_provocation] sample_nur sample_rsz _ sample_compute).
Defined.

(** On the sample the two factors are 1.5 and 0.5. *)
Example sample_modulation :
  nur_amp_of (nur_severity_of float_of_str_none sample_nur) = 1.5
  /\ rsz_damp_of (rsz_stability_of float_of_str_none sample_rsz) = 0.5.
Proof.
  unfold nur_severity_of, rsz_stability_of, sample_nur, sample_rsz.
  rewrite (signal_field_primary float_of_str_none
             [("severity_score", VNum 0.5)] "severity_score" _ 0.5 eq_refl).
  rewrite (signal_field_primary float_of_str_none
             [("stability_score", VNum 1)] "stability_score" _ 1 eq_refl).
  unfold nur_amp_of, rsz_damp_of, _norm01.
  rewrite (Rmin_right 1 0.5), (Rmax_right 0 0.5) by lra.
  rewrite (Rmin_left 1 1), (Rmax_right 0 1) by lra.
  split; lra.
Qed.



(** ** Integrator *)

Lemma py_mul_float_Ok (c : R) (v : pyval) (t : R) :
  py_mul_float c v = Ok t <-> exists x, num_of v = Some x /\ t = c * x.
Proof.
  split.
  - destruct v; simpl; intros H; try discriminate;
      injection H as <-; eauto.
  - intros [x [Hx ->]].
    destruct v; simpl in *; try discriminate;
      injection Hx as <-; reflexivity.
Qed.


Lemma risk_level_of_spec (c : R) :
  (risk_level_of c = DANGER <-> 0.65 < c)
  /\ (risk_level_of c = ELEVATED <-> 0.4 < c <= 0.65)
  /\ (risk_level_of c = WATCH <-> 0.2 < c <= 0.4)
  /\ (risk_level_of c = STABLE <-> c <= 0.2).
Proof.
  unfold risk_level_of.
  destruct (Rlt_dec 0.65 c); [|destruct (Rlt_dec 0.4 c);
    [|destruct (Rlt_dec 0.2 c)]];
    repeat split; intros; try discriminate; try lra.
Qed.

Section IntegratorProperties.

Variable float_of_str : string -> option R.
Variable self : integrator.

(** What a returning call of [integrate] has computed. *)
Lemma integrate_inv (portfolio : list holding) (nur rsz cycles : pyval)
    (market_expectation objective_prob : option R)
    (sentiments : option (list R)) (provocations : option (list pydict))
    (r : risk_result) :
  integrate float_of_str self portfolio nur rsz cycles market_expectation
    objective_prob sentiments provocations = Ok r ->
  exists nur_score rsz_score cycles_score,
    num_of (macro_score nur "severity_score") = Some nur_score
    /\ num_of (macro_score rsz "action_weight") = Some rsz_score
    /\ num_of (macro_score cycles "cycle_pressure") = Some cycles_score
    /\ portfolio_hhi r = compute_hhi_structured (weights_of portfolio)
    /\ compute_from_provocations float_of_str (cr self)
         (match provocations with Some l => l | None => [] end) nur rsz
       = Ok (chaotic_risk r)
    /\ composite r
       = round6 (composite_of (hhi_normalized_or (portfolio_hhi r) 0)
                   nur_score rsz_score cycles_score
                   (hmi_normalized (hope r)) (cr_scalar (chaotic_risk r)))
    /\ risk_level r
       = risk_level_of (composite_of (hhi_normalized_or (portfolio_hhi r) 0)
                          nur_score rsz_score cycles_score
                          (hmi_normalized (hope r))
                          (cr_scalar (chaotic_risk r))).
Proof.
  unfold integrate. intros H.
  apply bind_Ok in H as [cr_res [Hcr H]].
  apply bind_Ok in H as [t1 [H1 H]].
  apply bind_Ok in H as [t2 [H2 H]].
  apply bind_Ok in H as [t3 [H3 H]].
  apply py_mul_float_Ok in H1 as [x1 [E1 ->]].
  apply py_mul_float_Ok in H2 as [x2 [E2 ->]].
  apply py_mul_float_Ok in H3 as [x3 [E3 ->]].
  injection H as <-. cbn [portfolio_hhi chaotic_risk composite risk_level hope].
  exists x1, x2, x3.
  assert (forall h, hhi_normalized_or h 0.0 = hhi_normalized_or h 0) as E0.
  { intros []; simpl; lra. }
  rewrite E0. unfold composite_of.
  repeat split; assumption || reflexivity.
Qed.

End IntegratorProperties.

(** [C1], as amended.  Whenever [integrate] returns, the weighted sum
    S = 0.20*hhi_normalized + 0.15*nur_score + 0.10*rsz_score
    + 0.15*cycles_score + 0.20*hope_norm + 0.20*cr_scalar (coefficients
    fixed, summing to 1) decides the level: DANGER if S > 0.65, else
    ELEVATED if S > 0.4, else WATCH if S > 0.2, else STABLE; the
    composite field of the result is S rounded to six decimals. *)
Theorem integrate_composite_and_level
    (float_of_str : string -> option R) (self : integrator)
    (portfolio : list holding) (nur rsz cycles : pyval)
    (market_expectation objective_prob : option R)
    (sentiments : option (list R)) (provocations : option (list pydict))
    (r : risk_result) :
  integrate float_of_str self portfolio nur rsz cycles market_expectation
    objective_prob sentiments provocations = Ok r ->
  exists nur_score rsz_score cycles_score,
    num_of (macro_score nur "severity_score") = Some nur_score
    /\ num_of (macro_score rsz "action_weight") = Some rsz_score
    /\ num_of (macro_score cycles "cycle_pressure") = Some cycles_score
    /\ let S := 0.20 * hhi_normalized_or (portfolio_hhi r) 0
                + 0.15 * nur_score + 0.10 * rsz_score + 0.15 * cycles_score
                + 0.20 * hmi_normalized (hope r)
                + 0.20 * cr_scalar (chaotic_risk r) in
       composite r = round6 S
       /\ - (5 / 10000000) <= composite r - S <= 5 / 10000000
       /\ (risk_level r = DANGER <-> 0.65 < S)
       /\ (risk_level r = ELEVATED <-> 0.4 < S <= 0.65)
       /\ (risk_level r = WATCH <-> 0.2 < S <= 0.4)
       /\ (risk_level r = STABLE <-> S <= 0.2)
       /\ 0.20 + 0.15 + 0.10 + 0.15 + 0.20 + 0.20 = 1.
Proof.
  intros H.
  apply integrate_inv in H
    as (x1 & x2 & x3 & E1 & E2 & E3 & _ & _ & EC & EL).
  exists x1, x2, x3.
  split; [exact E1|]. split; [exact E2|]. split; [exact E3|].
  intros S. unfold composite_of in EC, EL. fold S in EC, EL.
  pose proof (risk_level_of_spec S) as (HD & HE & HW & HS).
  rewrite EL.
  split; [exact EC|].
  split; [rewrite EC; apply round6_error|].
  split; [exact HD|]. split; [exact HE|]. split; [exact HW|].
  split; [exact HS | lra].
Qed.

(** The call behind the next two lemmas: empty portfolio,
    severity_score 1, action_weight 0.500004, nothing else. *)
Lemma edge_integrate :
  exists r,
    integrate float_of_str_none risk_integrator [] edge_nur edge_rsz
      edge_cycles None None None None = Ok r
    /\ portfolio_hhi r = HhiError "No weights provided"
    /\ hmi_normalized (hope r) = 0
    /\ cr_scalar (chaotic_risk r) = 0
    /\ composite r = round6 (2000004 / 10000000)
    /\ risk_level r = risk_level_of (2000004 / 10000000).
Proof.
  eexists. split; [reflexivity|].
  cbn [portfolio_hhi hope hmi_normalized chaotic_risk cr_scalar composite
       risk_level].
  repeat split; try lra.
  - f_equal. simpl. lra.
  - f_equal. simpl. lra.
Qed.

Lemma integrate_composite_and_level_witness :
  exists r nur_score rsz_score cycles_score,
    num_of (macro_score edge_nur "severity_score") = Some nur_score
    /\ num_of (macro_score edge_rsz "action_weight") = Some rsz_score
    /\ num_of (macro_score edge_cycles "cycle_pressure") = Some cycles_score
    /\ let S := 0.20 * hhi_normalized_or (portfolio_hhi r) 0
                + 0.15 * nur_score + 0.10 * rsz_score + 0.15 * cycles_score
                + 0.20 * hmi_normalized (hope r)
                + 0.20 * cr_scalar (chaotic_risk r) in
       composite r = round6 S
       /\ - (5 / 10000000) <= composite r - S <= 5 / 10000000
       /\ (risk_level r = DANGER <-> 0.65 < S)
       /\ (risk_level r = ELEVATED <-> 0.4 < S <= 0.65)
       /\ (risk_level r = WATCH <-> 0.2 < S <= 0.4)
       /\ (risk_level r = STABLE <-> S <= 0.2)
       /\ 0.20 + 0.15 + 0.10 + 0.15 + 0.20 + 0.20 = 1.
Proof.
  eexists.
  exact (integrate_composite_and_level float_of_str_none risk_integrator []
           edge_nur edge_rsz edge_cycles None None None None _ eq_refl).
Defined.

(** [C1], as stated, fails on the returned composite.  With
    severity_score = 1 and action_weight = 0.500004 (everything else
    absent) the weighted sum is 0.2000004; the result carries
    composite = 0.2, which is not the weighted sum, and risk_level =
    WATCH although the composite it reports is not > 0.2. *)
Lemma integrate_composite_rounded_counterexample :
  exists r,
    integrate float_of_str_none risk_integrator [] edge_nur edge_rsz
      edge_cycles None None None None = Ok r
    /\ composite_of 0 1 0.500004 0 0 0 = 0.2000004
    /\ composite r = 0.2
    /\ composite r <> composite_of 0 1 0.500004 0 0 0
    /\ risk_level r = WATCH
    /\ ~ composite r > 0.2.
Proof.
  destruct edge_integrate as (r & Hr & _ & _ & _ & EC & EL).
  assert (composite r = 0.2) as E.
  { rewrite EC, (round6_eval _ 200000) by lra. lra. }
  exists r. unfold composite_of.
  repeat split; try assumption; try lra.
  rewrite EL. apply risk_level_of_spec. lra.
Qed.

(** [C2].  The weighted sum is monotonic non-decreasing in each of its
    six sub-scores, the others fixed, and so is its rounding to six
    decimals, the composite that [integrate] reports; with all six
    sub-scores 0 it is 0 and the level is STABLE; with all six 1 it is
    exactly 1 and the level is DANGER. *)
Theorem composite_monotone_and_extremes :
  (forall a a' b c d e f, a <= a' ->
     composite_of a b c d e f <= composite_of a' b c d e f)
  /\ (forall a b b' c d e f, b <= b' ->
        composite_of a b c d e f <= composite_of a b' c d e f)
  /\ (forall a b c c' d e f, c <= c' ->
        composite_of a b c d e f <= composite_of a b c' d e f)
  /\ (forall a b c d d' e f, d <= d' ->
        composite_of a b c d e f <= composite_of a b c d' e f)
  /\ (forall a b c d e e' f, e <= e' ->
        composite_of a b c d e f <= composite_of a b c d e' f)
  /\ (forall a b c d e f f', f <= f' ->
        composite_of a b c d e f <= composite_of a b c d e f')
  /\ (forall s s', s <= s' -> round6 s <= round6 s')
  /\ composite_of 0 0 0 0 0 0 = 0
  /\ round6 (composite_of 0 0 0 0 0 0) = 0
  /\ risk_level_of (composite_of 0 0 0 0 0 0) = STABLE
  /\ composite_of 1 1 1 1 1 1 = 1
  /\ round6 (composite_of 1 1 1 1 1 1) = 1
  /\ risk_level_of (composite_of 1 1 1 1 1 1) = DANGER
  /\ (forall float_of_str self portfolio nur rsz cycles market_expectation
             objective_prob sentiments provocations r,
        integrate float_of_str self portfolio nur rsz cycles
          market_expectation objective_prob sentiments provocations = Ok r ->
        exists nur_score rsz_score cycles_score,
          num_of (macro_score nur "severity_score") = Some nur_score
          /\ num_of (macro_score rsz "action_weight") = Some rsz_score
          /\ num_of (macro_score cycles "cycle_pressure") = Some cycles_score
          /\ composite r
             = round6 (composite_of (hhi_normalized_or (portfolio_hhi r) 0)
                         nur_score rsz_score cycles_score
                         (hmi_normalized (hope r))
                         (cr_scalar (chaotic_risk r)))
          /\ risk_level r
             = risk_level_of
                 (composite_of (hhi_normalized_or (portfolio_hhi r) 0)
                    nur_score rsz_score cycles_score
                    (hmi_normalized (hope r))
                    (cr_scalar (chaotic_risk r)))).
Proof.
  assert (composite_of 0 0 0 0 0 0 = 0) as E0 by (unfold composite_of; lra).
  assert (composite_of 1 1 1 1 1 1 = 1) as E1 by (unfold composite_of; lra).
  repeat match goal with |- _ /\ _ => split end;
    try (intros; unfold composite_of; lra).
  - apply round6_mono.
  - rewrite E0. apply round6_0.
  - rewrite E0. apply risk_level_of_spec. lra.
  - rewrite E1. apply round6_1.
  - rewrite E1. apply risk_level_of_spec. lra.
  - intros fos self portfolio nur rsz cycles me op sents provs r H.
    apply integrate_inv in H
      as (x1 & x2 & x3 & H1 & H2 & H3 & _ & _ & EC & EL).
    exists x1, x2, x3. auto.
Qed.

(** *** When the pipeline returns and when it raises *)


Section Returns.

Variable float_of_str : string -> option R.





End Returns.

(** Missing optional fields do degrade to 0: with an empty portfolio and
    three empty macro signals the pipeline completes with composite 0. *)
Lemma integrate_all_missing (float_of_str : string -> option R) :
  exists r,
    integrate float_of_str risk_integrator [] (VDict []) (VDict [])
      (VDict []) None None None None = Ok r
    /\ composite r = 0 /\ risk_level r = STABLE.
Proof.
  eexists. split; [reflexivity|].
  cbn [composite risk_level]. simpl.
  match goal with
  | |- round6 ?e = 0 /\ _ => assert (e = 0) as E by lra; rewrite !E
  end.
  split; [apply round6_0 | apply risk_level_of_spec; lra].
Qed.

(** The chaotic layer reads the same malformed field as 0. *)
Lemma nur_severity_of_null (float_of_str : string -> option R) :
  nur_severity_of float_of_str null_nur = 0.
Proof. reflexivity. Qed.

(** [C7] does not hold of the code.  A macro signal whose
    severity_score is null (or any non-number) makes [integrate] raise
    a TypeError at the weighted sum, although the chaotic layer reads
    the same field as 0; a provocation entry whose intensity is an
    array raises a TypeError, and one whose intensity is a word that
    [float] rejects raises a ValueError.  No result is returned in
    these cases. *)
Theorem integrate_raises_on_malformed_subfields
    (float_of_str : string -> option R) :
  integrate float_of_str risk_integrator [] null_nur (VDict []) (VDict [])
    None None None None = Raise TypeError
  /\ nur_severity_of float_of_str null_nur = 0
  /\ integrate float_of_str risk_integrator [] (VDict []) (VDict [])
       (VDict []) None None None (Some [array_provocation])
     = Raise TypeError
  /\ (float_of_str "high" = None ->
      integrate float_of_str risk_integrator [] (VDict []) (VDict [])
        (VDict []) None None None (Some [word_provocation])
      = Raise ValueError).
Proof.
  split; [reflexivity|]. split; [reflexivity|]. split; [reflexivity|].
  intros H. unfold integrate, compute_from_provocations, prov_loop, prov_step,
    word_provocation.
  cbn [get_or dict_get String.eqb Ascii.eqb Bool.eqb py_or truthy negb
       py_float].
  rewrite H. reflexivity.
Qed.

(** *** Flags on a focused, institutional scenario *)

Lemma Rltb_true (a b : R) : a < b -> Rltb a b = true.
Proof.
  intros H. unfold Rltb.
  destruct (Rlt_dec a b); [reflexivity | contradiction].
Qed.

Lemma Rltb_false (a b : R) : ~ a < b -> Rltb a b = false.
Proof.
  intros H. unfold Rltb.
  destruct (Rlt_dec a b); [contradiction | reflexivity].
Qed.

Lemma focused_loop :
  prov_loop float_of_str_none (ChaoticRisk None) loop_init focused_provocations
  = Ok focused_state.
Proof.
  unfold prov_loop, prov_step, focused_provocations, get_or.
  cbn [dict_get String.eqb Ascii.eqb Bool.eqb].
  rewrite !py_or_num by lra.
  cbn. reflexivity.
Qed.

(** A single vector carries all the energy: entropy 0, coherence 1. *)
Lemma entropy_single (w : R) : _entropy_of_weights [w] = 0.
Proof.
  unfold _entropy_of_weights.
  destruct (Rle_dec (py_sum [w]) 0) as [_|Hs]; [reflexivity|].
  unfold positive_shares. simpl.
  destruct (Rltb 0 w); simpl; [|reflexivity].
  rewrite ln_1. destruct (Rlt_dec 0 0) as [H|_]; [lra | reflexivity].
Qed.

Example focused_flags :
  exists r,
    compute_from_provocations float_of_str_none (ChaoticRisk None)
      focused_provocations (VDict []) (VDict []) = Ok r
    /\ flags r = ["FOCUSED_HIGH_INTENSITY"; "INSTITUTIONAL_DOMINANCE"].
Proof.
  eexists. split.
  - unfold compute_from_provocations, focused_provocations.
    fold focused_provocations. rewrite focused_loop. reflexivity.
  - unfold cr_finish, flags, focused_state, vector_map, inst_vals, ind_vals,
      confidences.
    cbn [map snd]. rewrite entropy_single.
    assert (py_sum [5 * 1.5; 5 * 1.5] = 15) as ES.
    { rewrite !py_sum_cons, py_sum_nil. lra. }
    assert (mean [0.9; 0.9] = 0.9) as EM.
    { unfold mean. rewrite !py_sum_cons, py_sum_nil. simpl. lra. }
    rewrite ES, EM, py_sum_nil.
    rewrite (Rltb_true 0.8), (Rltb_true 10.0), (Rltb_true (0.6 * _)),
      (Rltb_true 1.0), (Rltb_false 0.9) by lra.
    reflexivity.
Qed.

(** The second example of the specification: [{A: 100}]. *)
Example hhi_example_single :
  exists items,
    compute_hhi_structured [("A", 100)] = HhiOk 1 1 1 100 items.
Proof.
  set (w := [("A", 100)]).
  assert (total_of w = 100) as ET.
  { unfold total_of, w. simpl. rewrite !py_sum_cons, py_sum_nil. lra. }
  assert (w <> []) as Hne by discriminate.
  rewrite (compute_hhi_structured_ok w Hne) by lra.
  unfold w at 1 2. rewrite hhi_raw_single by lra.
  unfold hhi_normalized_raw. simpl List.length. cbn [Nat.ltb Nat.leb].
  rewrite ET, round6_1. eexists. reflexivity.
Qed.

(** With the module-level integrator the chaotic layer contributes at
    most 0.18 to the weighted sum of any returning call. *)
Lemma integrate_chaotic_share (float_of_str : string -> option R)
    (portfolio : list holding) (nur rsz cycles : pyval)
    (market_expectation objective_prob : option R)
    (sentiments : option (list R)) (provocations : option (list pydict))
    (r : risk_result) :
  integrate float_of_str risk_integrator portfolio nur rsz cycles
    market_expectation objective_prob sentiments provocations = Ok r ->
  0 <= 0.20 * cr_scalar (chaotic_risk r) <= 0.18.
Proof.
  intros H.
  apply integrate_inv in H as (_ & _ & _ & _ & _ & _ & _ & Hc & _ & _).
  pose proof (compute_cr_scalar_dampen float_of_str (cr risk_integrator)
                _ _ _ _ eq_refl Hc) as Hu.
  apply compute_from_provocations_inv in Hc as [[_ E]|[_ [st [_ E]]]].
  - rewrite E in *. simpl in *. lra.
  - pose proof (cr_finish_scalar_unit float_of_str (cr risk_integrator) st
                  nur rsz) as Hl.
    rewrite <- E in Hl. lra.
Qed.


(** * Further properties of the engines *)

(** ** Concentration index: invariances and extremal cases *)




Lemma hhi_summary_ok (weights : list (string * R)) :
  weights <> [] -> total_of weights <> 0 ->
  hhi_summary (compute_hhi_structured weights)
  = (None, Some (round6 (hhi_raw weights)),
     Some (round6 (hhi_normalized_raw weights)),
     Some (List.length weights)).
Proof.
  intros Hne Ht. now rewrite compute_hhi_structured_ok.
Qed.

Lemma hhi_summary_zero_total (weights : list (string * R)) :
  weights <> [] -> total_of weights = 0 ->
  hhi_summary (compute_hhi_structured weights)
  = (Some "Total weights = 0", None, None, None).
Proof.
  intros Hne Ht. unfold compute_hhi_structured.
  destruct weights as [|kw ws]; [congruence|].
  fold (total_of (kw :: ws)).
  destruct (Req_dec_T (total_of (kw :: ws)) 0); [reflexivity|contradiction].
Qed.



Lemma py_sum_Permutation (l l' : list R) :
  Permutation l l' -> py_sum l = py_sum l'.
Proof.
  induction 1 as [|x l l' _ IH|x y l|l l' l'' _ IH1 _ IH2].
  - reflexivity.
  - rewrite !py_sum_cons, IH. reflexivity.
  - rewrite !py_sum_cons. lra.
  - now rewrite IH1.
Qed.

(** The order in which the mapping lists its entries does not matter
    for the error, hhi, hhi_normalized and n. *)
Theorem hhi_order_invariant (weights weights' : list (string * R)) :
  Permutation weights weights' ->
  hhi_summary (compute_hhi_structured weights')
  = hhi_summary (compute_hhi_structured weights).
Proof.
  intros HP.
  assert (total_of weights' = total_of weights) as ET.
  { unfold total_of. symmetry. apply py_sum_Permutation.
    now apply Permutation_map. }
  assert (List.length weights' = List.length weights) as EL.
  { symmetry. now apply Permutation_length. }
  destruct weights as [|kw ws].
  - apply Permutation_nil in HP. subst. reflexivity.
  - assert (weights' <> []) as Hne'.
    { intros ->. apply Permutation_sym, Permutation_nil in HP. discriminate. }
    assert (kw :: ws <> []) as Hne by discriminate.
    destruct (Req_dec_T (total_of (kw :: ws)) 0) as [E|NE].
    + rewrite !hhi_summary_zero_total; try assumption; try reflexivity.
      now rewrite ET.
    + rewrite !hhi_summary_ok; try assumption; [|now rewrite ET].
      unfold hhi_normalized_raw. rewrite EL.
      assert (hhi_raw weights' = hhi_raw (kw :: ws)) as ->; [|reflexivity].
      rewrite !hhi_raw_sum, ET. symmetry. apply py_sum_Permutation.
      now apply Permutation_map.
Qed.

Lemma hhi_order_invariant_witness :
  hhi_summary (compute_hhi_structured [("B", 30); ("A", 70)])
  = hhi_summary (compute_hhi_structured [("A", 70); ("B", 30)]).
Proof. apply hhi_order_invariant. apply perm_swap. Defined.

Lemma hhi_fold_snd (total : R) (weights : list (string * R))
    (a : R) (its : list hhi_item) :
  snd (fold_left (hhi_step total) weights (a, its))
  = its ++ map (hhi_item_of total) weights.
Proof.
  revert a its.
  induction weights as [|[k w] ws IH]; intros a its; simpl.
  - now rewrite app_nil_r.
  - rewrite IH, <- app_assoc. reflexivity.
Qed.

(** On success the result lists one item per entry of the mapping, in
    the mapping's order, with the entry's isin and weight and the
    rounded share and squared share; n is the number of entries and
    total_weight their sum, which is not zero. *)
Theorem hhi_items_follow_mapping (weights : list (string * R))
    (h hn : R) (n : nat) (total : R) (items : list hhi_item) :
  compute_hhi_structured weights = HhiOk h hn n total items ->
  items = map (hhi_item_of total) weights
  /\ map it_isin items = map fst weights
  /\ map it_weight items = map snd weights
  /\ n = List.length items
  /\ total = py_sum (map it_weight items)
  /\ total <> 0.
Proof.
  intros H.
  assert (weights <> [] /\ total_of weights <> 0) as [Hne Ht].
  { pose proof (hhi_error_iff weights) as [_ HE].
    rewrite H in HE. simpl in HE.
    split; intros E; apply HE; auto. }
  rewrite (compute_hhi_structured_ok weights Hne Ht) in H.
  injection H as _ _ <- <- <-.
  rewrite hhi_fold_snd. simpl.
  rewrite !map_map. simpl. rewrite length_map.
  repeat split; assumption.
Qed.

Lemma hhi_items_follow_mapping_witness :
  exists items,
    items = map (hhi_item_of 100) [("A", 50); ("B", 50)]
    /\ map it_isin items = map fst [("A", 50); ("B", 50)]
    /\ map it_weight items = map snd [("A", 50); ("B", 50)]
    /\ 2%nat = List.length items
    /\ 100 = py_sum (map it_weight items)
    /\ 100 <> 0.
Proof.
  destruct hhi_example_50_50 as [items H]. exists items.
  exact (hhi_items_follow_mapping _ _ _ _ _ _ H).
Defined.




Lemma total_of_app (l1 l2 : list (string * R)) :
  total_of (l1 ++ l2) = total_of l1 + total_of l2.
Proof. unfold total_of. now rewrite map_app, py_sum_app. Qed.

Lemma total_of_zeros (l : list (string * R)) :
  Forall (fun kw => snd kw = 0) l -> total_of l = 0.
Proof. intros H. rewrite (total_of_equal 0 l H). lra. Qed.

Lemma share_sq_zeros (total : R) (l : list (string * R)) :
  Forall (fun kw => snd kw = 0) l -> py_sum (map (share_sq total) l) = 0.
Proof.
  intros H. rewrite (share_sq_equal 0 total l H).
  unfold Rdiv. rewrite !Rmult_0_l. lra.
Qed.

(** Total concentration: when a single holding carries all the weight
    (every other weight is 0) the result is hhi = 1 and
    hhi_normalized = 1, for any number of entries. *)
Theorem hhi_single_nonzero_holding (l1 l2 : list (string * R))
    (k : string) (w : R) :
  Forall (fun kw => snd kw = 0) l1 ->
  Forall (fun kw => snd kw = 0) l2 ->
  w <> 0 ->
  hhi_summary (compute_hhi_structured (l1 ++ (k, w) :: l2))
  = (None, Some 1, Some 1, Some (S (List.length l1 + List.length l2))).
Proof.
  intros H1 H2 Hw.
  set (ws := l1 ++ (k, w) :: l2).
  assert (total_of ws = w) as ET.
  { unfold ws. rewrite total_of_app.
    change ((k, w) :: l2) with ([(k, w)] ++ l2).
    rewrite total_of_app, (total_of_zeros l1 H1), (total_of_zeros l2 H2).
    unfold total_of. simpl. rewrite py_sum_cons, py_sum_nil. lra. }
  assert (ws <> []) as Hne by (unfold ws; destruct l1; discriminate).
  assert (hhi_raw ws = 1) as EH.
  { rewrite hhi_raw_sum, ET. unfold ws.
    rewrite map_app, py_sum_app. cbn [map]. rewrite py_sum_cons.
    rewrite (share_sq_zeros w l1 H1), (share_sq_zeros w l2 H2).
    unfold share_sq. simpl. field. assumption. }
  assert (List.length ws = S (List.length l1 + List.length l2)) as EL.
  { unfold ws. rewrite length_app. simpl. lia. }
  rewrite hhi_summary_ok by (try assumption; rewrite ET; assumption).
  rewrite EH, EL, round6_1.
  assert (hhi_normalized_raw ws = 1) as ->; [|now rewrite round6_1].
  unfold hhi_normalized_raw. rewrite EH, EL.
  destruct (Nat.ltb_spec 1 (S (List.length l1 + List.length l2))) as [Hn|Hn];
    [|reflexivity].
  apply lt_INR in Hn. simpl (INR 1) in Hn.
  set (n := INR _) in *.
  assert (/ n < 1).
  { rewrite <- Rinv_1. apply Rinv_lt_contravar; lra. }
  field. split; lra.
Qed.

Lemma hhi_single_nonzero_holding_witness :
  hhi_summary (compute_hhi_structured ([("A", 0)] ++ ("B", 7) :: [("C", 0)]))
  = (None, Some 1, Some 1, Some 3%nat).
Proof.
  apply (hhi_single_nonzero_holding [("A", 0)] [("C", 0)] "B" 7).
  - repeat constructor.
  - repeat constructor.
  - lra.
Defined.

(** ** Mispricing index: range, monotonicity, saturation *)

Lemma Rmin_mono_l (a b c : R) : a <= b -> Rmin a c <= Rmin b c.
Proof.
  intros H. unfold Rmin.
  destruct (Rle_dec a c), (Rle_dec b c); lra.
Qed.

Lemma Rmin_mono_r (a b c : R) : a <= b -> Rmin c a <= Rmin c b.
Proof.
  intros H. unfold Rmin.
  destruct (Rle_dec c a), (Rle_dec c b); lra.
Qed.

Lemma ln_mono (x y : R) : 0 < x -> x <= y -> ln x <= ln y.
Proof.
  intros Hx [H|H].
  - left. now apply ln_increasing.
  - right. now rewrite H.
Qed.

Lemma exp_mono (x y : R) : x <= y -> exp x <= exp y.
Proof.
  intros [H|H].
  - left. now apply exp_increasing.
  - right. now rewrite H.
Qed.

Lemma ln_10_pos : 0 < ln 10.
Proof. pose proof ln_10_bounds. lra. Qed.

Lemma log10_mono (x y : R) : 0 < x -> x <= y -> log10 x <= log10 y.
Proof.
  intros Hx Hxy. unfold log10.
  apply Rmult_le_compat_r.
  - left. apply Rinv_0_lt_compat, ln_10_pos.
  - now apply ln_mono.
Qed.

Lemma log10_1 : log10 1 = 0.
Proof. unfold log10. rewrite ln_1. unfold Rdiv. apply Rmult_0_l. Qed.

(** The body of the normalisation, on a ratio already known. *)
Lemma hmi_norm_mono (h h' : R) :
  h <= h' ->
  Rmax 0 (Rmin 1 (1 - exp (- log10 (Rmin (Rmax h 0) 1000000 + 1))))
  <= Rmax 0 (Rmin 1 (1 - exp (- log10 (Rmin (Rmax h' 0) 1000000 + 1)))).
Proof.
  intros H.
  apply Rle_max_compat_l, Rmin_mono_r.
  assert (0 <= Rmin (Rmax h 0) 1000000) as H0.
  { apply Rmin_glb; [apply Rmax_r | lra]. }
  assert (Rmin (Rmax h 0) 1000000 <= Rmin (Rmax h' 0) 1000000) as Hc.
  { apply Rmin_mono_l, Rle_max_compat_r, H. }
  assert (log10 (Rmin (Rmax h 0) 1000000 + 1)
          <= log10 (Rmin (Rmax h' 0) 1000000 + 1)) as HL.
  { apply log10_mono; lra. }
  assert (exp (- log10 (Rmin (Rmax h' 0) 1000000 + 1))
          <= exp (- log10 (Rmin (Rmax h 0) 1000000 + 1))) as HE.
  { apply exp_mono. lra. }
  lra.
Qed.

(** For a fixed positive objective probability, a larger market
    expectation never gives a smaller hmi_normalized. *)
Theorem hmi_normalized_monotone (m m' p : R) :
  0 < p -> m <= m' ->
  hmi_normalized (compute_hmi m (Some p))
  <= hmi_normalized (compute_hmi m' (Some p)).
Proof.
  intros Hp Hm. rewrite !compute_hmi_normalized by assumption.
  apply hmi_norm_mono.
  apply Rmult_le_compat_r; [|assumption].
  left. now apply Rinv_0_lt_compat.
Qed.

Lemma hmi_normalized_monotone_witness :
  hmi_normalized (compute_hmi 1 (Some 2))
  <= hmi_normalized (compute_hmi 3 (Some 2)).
Proof. apply hmi_normalized_monotone; lra. Defined.

(** A market expectation that is zero or negative, against a positive
    objective probability, is not an error: the ratio is returned as it
    is and hmi_normalized is exactly 0. *)
Theorem hmi_nonpositive_expectation (m p : R) :
  0 < p -> m <= 0 ->
  compute_hmi m (Some p)
  = {| hmi := Some (m / p); hope_error := None; hmi_normalized := 0 |}.
Proof.
  intros Hp Hm.
  assert (hmi_normalized (compute_hmi m (Some p)) = 0) as E.
  { rewrite compute_hmi_normalized by assumption.
    assert (m / p <= 0) as Hr.
    { unfold Rdiv. rewrite <- (Rmult_0_l (/ p)).
      apply Rmult_le_compat_r; [|assumption].
      left. now apply Rinv_0_lt_compat. }
    rewrite (Rmax_right (m / p) 0), (Rmin_left 0 1000000) by lra.
    replace (0 + 1) with 1 by lra.
    rewrite log10_1, Ropp_0, exp_0.
    replace (1 - 1) with 0 by lra.
    rewrite (Rmin_right 1 0), (Rmax_left 0 0) by lra. reflexivity. }
  revert E. unfold compute_hmi.
  destruct (Rle_dec p 0); [lra|]. simpl. intros ->. reflexivity.
Qed.

Lemma hmi_nonpositive_expectation_witness :
  compute_hmi (-1) (Some 2)
  = {| hmi := Some (-1 / 2); hope_error := None; hmi_normalized := 0 |}.
Proof. apply hmi_nonpositive_expectation; lra. Defined.

Lemma log10_clip_bound : log10 (1000000 + 1) <= 6000001 / 1000000.
Proof.
  pose proof ln_10_bounds as [L10 _]. pose proof ln_10_pos as HP.
  assert (ln (1000000 + 1) <= 6 * ln 10 + 1 / 1000000) as H.
  { apply ln_le_of_exp; [lra|].
    rewrite exp_plus.
    replace (6 * ln 10) with (INR 6 * ln 10) by (simpl; lra).
    rewrite exp_pow_nat, exp_ln by lra.
    pose proof (exp_ineq1_le (1 / 1000000)) as HE.
    replace (10 ^ 6) with 1000000 by (simpl; lra). nra. }
  unfold log10.
  apply (Rmult_le_reg_r (ln 10)); [assumption|].
  replace (ln (1000000 + 1) / ln 10 * ln 10) with (ln (1000000 + 1))
    by (field; lra).
  nra.
Qed.

Lemma exp_neg_clip_bound : 2478 / 1000000 <= exp (- (6000001 / 1000000)).
Proof.
  replace (- (6000001 / 1000000)) with (IZR (-6000001) / IZR 1000000) by lra.
  replace (2478 / 1000000) with (IZR 2478 / IZR 1000000) by lra.
  exp_bound 30%nat.
Qed.

(** hmi_normalized saturates below 1: because the ratio is clipped at
    1e6, no input gives more than 0.997522 (and none gives less
    than 0). *)
Theorem hmi_normalized_saturates (m : R) (op : option R) :
  0 <= hmi_normalized (compute_hmi m op) <= 997522 / 1000000.
Proof.
  split; [apply hmi_normalized_unit|].
  unfold compute_hmi.
  destruct op as [p|]; [|simpl; lra].
  destruct (Rle_dec p 0); [simpl; lra|].
  simpl. rewrite hmi_norm_try_ok. simpl.
  set (c := Rmin (Rmax (m / p) 0) 1000000).
  assert (0 <= c <= 1000000) as [Hc0 Hc1].
  { unfold c. split; [apply Rmin_glb; [apply Rmax_r | lra] | apply Rmin_r]. }
  assert (log10 (c + 1) <= 6000001 / 1000000) as HL.
  { eapply Rle_trans; [|apply log10_clip_bound]. apply log10_mono; lra. }
  assert (exp (- (6000001 / 1000000)) <= exp (- log10 (c + 1))) as HE.
  { apply exp_mono. lra. }
  pose proof exp_neg_clip_bound as HB.
  apply Rmax_lub; [lra|].
  eapply Rle_trans; [apply Rmin_r | lra].
Qed.

(** ** Sentiment aggregation *)

Lemma py_sum_bounds (lo hi : R) (l : list R) :
  Forall (fun x => lo <= x <= hi) l ->
  INR (List.length l) * lo <= py_sum l <= INR (List.length l) * hi.
Proof.
  induction 1 as [|x l Hx _ IH].
  - simpl. rewrite py_sum_nil. lra.
  - cbn [List.length]. rewrite py_sum_cons, S_INR. lra.
Qed.

Lemma mean_bounds (lo hi : R) (l : list R) :
  l <> [] -> Forall (fun x => lo <= x <= hi) l -> lo <= mean l <= hi.
Proof.
  intros Hne H. unfold mean.
  assert (0 < INR (List.length l)) as Hn.
  { apply lt_0_INR. destruct l; [congruence | simpl; lia]. }
  pose proof (py_sum_bounds lo hi l H) as [Hl Hu].
  set (n := INR (List.length l)) in *.
  split.
  - apply (Rmult_le_reg_r n); [assumption|].
    replace (py_sum l / n * n) with (py_sum l) by (field; lra). lra.
  - apply (Rmult_le_reg_r n); [assumption|].
    replace (py_sum l / n * n) with (py_sum l) by (field; lra). lra.
Qed.

Lemma pstdev_bounds (lo hi : R) (l : list R) :
  l <> [] -> Forall (fun x => lo <= x <= hi) l ->
  0 <= pstdev l <= hi - lo.
Proof.
  intros Hne H. unfold pstdev.
  split; [apply sqrt_pos|].
  pose proof (mean_bounds lo hi l Hne H) as Hm.
  set (m := mean l) in *.
  assert (0 < INR (List.length l)) as Hn.
  { apply lt_0_INR. destruct l; [congruence | simpl; lia]. }
  assert (Forall (fun y => 0 <= y <= (hi - lo) * (hi - lo))
                 (map (fun x => (x - m) * (x - m)) l)) as HF.
  { apply Forall_forall. intros y Hy.
    apply in_map_iff in Hy as [x [<- Hx]].
    rewrite Forall_forall in H. specialize (H x Hx).
    assert (0 <= (hi - lo - (x - m)) * (hi - lo + (x - m))) as HP
      by (apply Rmult_le_pos; lra).
    split; [apply Rle_0_sqr|].
    replace ((hi - lo) * (hi - lo))
      with ((x - m) * (x - m) + (hi - lo - (x - m)) * (hi - lo + (x - m)))
      by ring.
    lra. }
  pose proof (py_sum_bounds _ _ _ HF) as [_ Hu].
  rewrite length_map in Hu.
  set (n := INR (List.length l)) in *.
  set (V := py_sum _) in *.
  assert (lo <= hi) as Hlh by lra.
  rewrite <- (sqrt_square (hi - lo)) by lra.
  apply sqrt_le_1_alt.
  apply (Rmult_le_reg_r n); [assumption|].
  replace (V / n * n) with V by (field; lra). lra.
Qed.

(** For a non-empty list of sentiments lying in [lo, hi], the reported
    count is the number of values, the reported mean lies between the
    roundings of lo and hi, and the reported (population) standard
    deviation lies between 0 and the rounding of hi - lo; in
    particular equal sentiments give a standard deviation of 0. *)
Theorem sentiment_summary_bounds (lo hi : R) (sentiments : list R) :
  sentiments <> [] ->
  Forall (fun x => lo <= x <= hi) sentiments ->
  let r := aggregate_sentiment_from_sources sentiments in
  s_count r = List.length sentiments
  /\ round6 lo <= s_mean r <= round6 hi
  /\ 0 <= s_std r <= round6 (hi - lo).
Proof.
  intros Hne H r.
  pose proof (mean_bounds lo hi sentiments Hne H) as [Hm1 Hm2].
  pose proof (pstdev_bounds lo hi sentiments Hne H) as [Hs1 Hs2].
  assert (0 <= hi - lo) as Hd by lra.
  unfold r, aggregate_sentiment_from_sources.
  destruct sentiments as [|x xs]; [congruence|].
  cbn [s_count s_mean s_std].
  split; [reflexivity|].
  split; [split; now apply round6_mono|].
  destruct (1 <? List.length (x :: xs))%nat.
  - split; [rewrite <- round6_0|]; now apply round6_mono.
  - rewrite round6_0. split; [lra|].
    rewrite <- round6_0. now apply round6_mono.
Qed.

Lemma sentiment_summary_bounds_witness :
  let r := aggregate_sentiment_from_sources [0.25; 0.25; 0.25] in
  s_count r = 3%nat
  /\ round6 0.25 <= s_mean r <= round6 0.25
  /\ 0 <= s_std r <= round6 (0.25 - 0.25).
Proof.
  apply (sentiment_summary_bounds 0.25 0.25 [0.25; 0.25; 0.25]).
  - discriminate.
  - repeat constructor; lra.
Defined.

(** ** Chaotic risk layer: entropy and coherence *)

Lemma ln_le_minus1 (x : R) : 0 < x -> ln x <= x - 1.
Proof.
  intros Hx. apply ln_le_of_exp; [assumption|].
  pose proof (exp_ineq1_le (x - 1)). lra.
Qed.

Lemma filter_positive_sum (l : list R) :
  Forall (fun w => 0 <= w) l ->
  py_sum (filter (fun w => Rltb 0 w) l) = py_sum l.
Proof.
  induction 1 as [|x l Hx _ IH]; [reflexivity|].
  cbn [filter]. unfold Rltb at 1.
  destruct (Rlt_dec 0 x) as [Hp|Hn].
  - rewrite !py_sum_cons, IH. reflexivity.
  - rewrite py_sum_cons, IH. lra.
Qed.

Lemma positive_shares_spec (s : R) (weights : list R) :
  Forall (fun w => 0 <= w) weights -> 0 < s -> s = py_sum weights ->
  Forall (fun p => 0 < p) (positive_shares s weights)
  /\ py_sum (positive_shares s weights) = 1.
Proof.
  intros Hnn Hs Es. unfold positive_shares. split.
  - apply Forall_forall. intros p Hp.
    apply in_map_iff in Hp as [w [<- Hw]].
    apply filter_In in Hw as [_ Hw]. unfold Rltb in Hw.
    destruct (Rlt_dec 0 w); [|discriminate].
    apply Rmult_lt_0_compat; [assumption | now apply Rinv_0_lt_compat].
  - rewrite sum_shares, filter_positive_sum by assumption.
    rewrite <- Es. field. lra.
Qed.

Lemma py_sum_member_le (l : list R) (x : R) :
  Forall (fun p => 0 < p) l -> In x l -> x <= py_sum l.
Proof.
  induction 1 as [|y l Hy Hl IH]; intros Hin; [contradiction|].
  rewrite py_sum_cons.
  assert (0 <= py_sum l) as H0.
  { apply py_sum_nonneg. eapply Forall_impl; [|exact Hl].
    simpl. intros. lra. }
  destruct Hin as [->|Hin]; [lra|].
  specialize (IH Hin). lra.
Qed.

Lemma entropy_term_upper (p M : R) :
  0 < p -> 0 < M ->
  - (p * ln (p + 1e-12)) <= p * ln M + / M - p.
Proof.
  intros Hp HM.
  assert (0 < p + 1e-12) as Hq by lra.
  assert (0 < (p + 1e-12) * M) as Hy by now apply Rmult_lt_0_compat.
  pose proof (ln_le_minus1 (/ ((p + 1e-12) * M))
                (Rinv_0_lt_compat _ Hy)) as H.
  rewrite ln_Rinv, ln_mult in H by assumption.
  assert (p * / ((p + 1e-12) * M) <= / M) as HF.
  { rewrite Rinv_mult.
    assert (p * / (p + 1e-12) <= 1) as H1.
    { apply (Rmult_le_reg_r (p + 1e-12)); [assumption|].
      rewrite Rmult_assoc, Rinv_l by lra. lra. }
    assert (0 < / M) as HiM by now apply Rinv_0_lt_compat.
    rewrite <- Rmult_assoc. nra. }
  apply (Rmult_le_compat_l p) in H; [|lra].
  lra.
Qed.

Lemma entropy_sum_upper (M : R) (ps : list R) :
  0 < M -> Forall (fun p => 0 < p) ps ->
  - py_sum (map (fun p => p * ln (p + 1e-12)) ps)
  <= ln M * py_sum ps + INR (List.length ps) * / M - py_sum ps.
Proof.
  intros HM. induction 1 as [|p ps Hp _ IH].
  - simpl. rewrite !py_sum_nil. lra.
  - cbn [map List.length]. rewrite !py_sum_cons, S_INR.
    pose proof (entropy_term_upper p M Hp HM). lra.
Qed.

Lemma entropy_sum_lower (ps : list R) :
  Forall (fun p => 0 < p <= 1) ps ->
  py_sum (map (fun p => p * ln (p + 1e-12)) ps) <= 1e-12 * py_sum ps.
Proof.
  induction 1 as [|p ps [Hp Hp1] _ IH].
  - simpl. rewrite !py_sum_nil. lra.
  - cbn [map]. rewrite !py_sum_cons.
    pose proof (ln_le_minus1 (p + 1e-12)) as H.
    assert (ln (p + 1e-12) <= 1e-12) as HL by lra.
    apply (Rmult_le_compat_l p) in HL; lra.
Qed.

Lemma entropy_of_weights_bounds_aux (weights : list R) :
  Forall (fun w => 0 <= w) weights ->
  - (2 * 1e-12) <= _entropy_of_weights weights <= 1.
Proof.
  intros Hnn. unfold _entropy_of_weights.
  destruct weights as [|w0 ws]; [lra|].
  set (ws' := w0 :: ws) in *.
  destruct (Rle_dec (py_sum ws') 0) as [|Hs]; [lra|].
  assert (0 < py_sum ws') as Hs' by lra.
  pose proof (positive_shares_spec (py_sum ws') ws' Hnn Hs' eq_refl)
    as [Hpos Hsum].
  remember (positive_shares (py_sum ws') ws') as ps eqn:Eps.
  destruct ps as [|p0 ps0]; [lra|].
  set (ps := p0 :: ps0) in *.
  destruct (Rlt_dec 0 (ln (INR (List.length ps)))) as [Hln|]; [|lra].
  set (N := INR (List.length ps)) in *.
  assert (0 < N) as HN by (apply lt_0_INR; simpl; lia).
  assert (2 <= N) as HN2.
  { destruct ps0 as [|p1 ps1].
    - exfalso. unfold N, ps in Hln. simpl in Hln. rewrite ln_1 in Hln. lra.
    - unfold N, ps. cbn [List.length]. rewrite !S_INR.
      pose proof (pos_INR (List.length ps1)). lra. }
  assert (ln 2 <= ln N) as HlnN by (apply ln_mono; lra).
  pose proof ln_2_bounds as [L2 _].
  set (E := py_sum (map (fun p => p * ln (p + 1e-12)) ps)) in *.
  split.
  - assert (E <= 1e-12) as HE.
    { assert (Forall (fun p => 0 < p <= 1) ps) as HF.
      { apply Forall_forall. intros p Hp.
        split; [rewrite Forall_forall in Hpos; now apply Hpos|].
        rewrite <- Hsum. now apply py_sum_member_le. }
      pose proof (entropy_sum_lower ps HF) as HE0.
      fold E in HE0. rewrite Hsum in HE0. lra. }
    apply (Rmult_le_reg_r (ln N)); [assumption|].
    replace (- E / ln N * ln N) with (- E) by (field; lra). nra.
  - pose proof (entropy_sum_upper N ps HN Hpos) as HU.
    fold E in HU. rewrite Hsum in HU. fold N in HU.
    rewrite Rinv_r in HU by lra.
    apply (Rmult_le_reg_r (ln N)); [assumption|].
    replace (- E / ln N * ln N) with (- E) by (field; lra). lra.
Qed.

(** The normalised entropy of non-negative weights is at most 1, and
    not below -2e-12 (the 1e-12 added inside the logarithm lets it dip
    under 0); hence coherence = 1 - entropy lies in [0, 1 + 2e-12]. *)
Theorem entropy_of_weights_bounds (weights : list R) :
  Forall (fun w => 0 <= w) weights ->
  - (2 * 1e-12) <= _entropy_of_weights weights <= 1.
Proof. exact (entropy_of_weights_bounds_aux weights). Qed.

Lemma entropy_of_weights_bounds_witness :
  - (2 * 1e-12) <= _entropy_of_weights [3; 0; 1] <= 1.
Proof.
  apply entropy_of_weights_bounds. repeat constructor; lra.
Defined.

(** ** Chaotic risk layer: the loop over the provocations *)

Lemma vector_add_sum (m : list (pyval * R)) (k : pyval) (e : R) :
  py_sum (map snd (vector_add m k e)) = py_sum (map snd m) + e.
Proof.
  induction m as [|[k' v] m IH]; simpl.
  - rewrite py_sum_cons, py_sum_nil. lra.
  - destruct (key_eqb k' k); simpl; rewrite !py_sum_cons; [lra|].
    rewrite IH. lra.
Qed.

Lemma vector_add_nonneg (m : list (pyval * R)) (k : pyval) (e : R) :
  Forall (fun kv => 0 <= snd kv) m -> 0 <= e ->
  Forall (fun kv => 0 <= snd kv) (vector_add m k e).
Proof.
  intros Hm He. induction Hm as [|[k' v] m Hv Hm IH]; simpl.
  - constructor; [simpl; lra | constructor].
  - destruct (key_eqb k' k); constructor; simpl in *; try lra; assumption.
Qed.

Lemma vector_add_length (m : list (pyval * R)) (k : pyval) (e : R) :
  (List.length m <= List.length (vector_add m k e) <= S (List.length m))%nat
  /\ (1 <= List.length (vector_add m k e))%nat.
Proof.
  induction m as [|[k' v] m IH]; simpl.
  - lia.
  - destruct (key_eqb k' k); simpl; lia.
Qed.

Section LoopProperties.

Variable float_of_str : string -> option R.
Variable self : config.

(** What one successful turn of the loop has read and stored. *)
Lemma prov_step_inv (st st' : loop_state) (p : pydict) :
  prov_step float_of_str self st p = Ok st' ->
  exists i src c,
    prov_intensity float_of_str p = Ok i
    /\ prov_source p = Ok src
    /\ prov_confidence float_of_str p = Ok c
    /\ hashable (prov_vector p) = true
    /\ inst_vals st'
       = (if institutional_like src
          then inst_vals st ++ [i * class_weight self src] else inst_vals st)
    /\ ind_vals st'
       = (if institutional_like src
          then ind_vals st else ind_vals st ++ [i * class_weight self src])
    /\ vector_map st'
       = vector_add (vector_map st) (prov_vector p)
           (Rabs (i * class_weight self src))
    /\ confidences st' = confidences st ++ [c].
Proof.
  unfold prov_step. fold (prov_intensity float_of_str p).
  fold (prov_source p). fold (prov_confidence float_of_str p).
  fold (prov_vector p).
  intros H.
  apply bind_Ok in H as [i [Hi H]].
  apply bind_Ok in H as [src [Hs H]].
  apply bind_Ok in H as [c [Hc H]].
  fold (class_weight self src) in H.
  destruct (hashable (prov_vector p)) eqn:Hh; [|discriminate].
  injection H as <-. exists i, src, c. simpl.
  repeat split; assumption.
Qed.

(** Invariants of the loop, from any state. *)
Lemma prov_loop_invariants (ps : list pydict) :
  forall st st',
    prov_loop float_of_str self st ps = Ok st' ->
    List.length (confidences st')
    = (List.length (confidences st) + List.length ps)%nat
    /\ (List.length (inst_vals st') + List.length (ind_vals st')
        = List.length (inst_vals st) + List.length (ind_vals st)
          + List.length ps)%nat
    /\ (List.length (vector_map st) <= List.length (vector_map st')
        <= List.length (vector_map st) + List.length ps)%nat
    /\ (ps <> [] -> (1 <= List.length (vector_map st'))%nat)
    /\ (Forall (fun kv => 0 <= snd kv) (vector_map st) ->
        Forall (fun kv => 0 <= snd kv) (vector_map st'))
    /\ py_sum (map snd (vector_map st'))
       - py_sum (map Rabs (inst_vals st')) - py_sum (map Rabs (ind_vals st'))
       = py_sum (map snd (vector_map st))
         - py_sum (map Rabs (inst_vals st)) - py_sum (map Rabs (ind_vals st)).
Proof.
  induction ps as [|p ps IH]; intros st st' H.
  - injection H as <-. simpl. repeat split; try lia; try congruence; auto.
  - simpl in H. apply bind_Ok in H as [st1 [H1 H]].
    apply prov_step_inv in H1
      as (i & src & c & _ & _ & _ & _ & Ei & En & Ev & Ec).
    specialize (IH st1 st' H) as (I1 & I2 & I3 & I4 & I5 & I6).
    pose proof (vector_add_length (vector_map st) (prov_vector p)
                  (Rabs (i * class_weight self src))) as [VL1 VL2].
    rewrite <- Ev in VL1, VL2.
    assert (List.length (inst_vals st1) + List.length (ind_vals st1)
            = S (List.length (inst_vals st) + List.length (ind_vals st)))%nat
      as EL.
    { rewrite Ei, En. destruct (institutional_like src);
        rewrite length_app; simpl; lia. }
    assert (py_sum (map Rabs (inst_vals st1))
            + py_sum (map Rabs (ind_vals st1))
            = py_sum (map Rabs (inst_vals st))
              + py_sum (map Rabs (ind_vals st))
              + Rabs (i * class_weight self src)) as ES.
    { rewrite Ei, En. destruct (institutional_like src);
        rewrite map_app, py_sum_app; simpl;
        rewrite py_sum_cons, py_sum_nil; lra. }
    assert (py_sum (map snd (vector_map st1))
            = py_sum (map snd (vector_map st))
              + Rabs (i * class_weight self src)) as EV.
    { rewrite Ev. apply vector_add_sum. }
    cbn [List.length].
    split; [rewrite I1, Ec, length_app; simpl; lia|].
    split; [lia|]. split; [lia|].
    split; [intros _; destruct ps; [injection H as <-; lia|];
            apply I4; discriminate|].
    split.
    + intros Hnn. apply I5. rewrite Ev.
      apply vector_add_nonneg; [assumption | apply Rabs_pos].
    + lra.
Qed.

End LoopProperties.



(** ** Chaotic risk layer: special inputs *)






Section SpecialInputs.

Variable float_of_str : string -> option R.
Variable self : config.



Lemma prov_loop_no_institutional (ps : list pydict) :
  forall st st',
    Forall (fun p => forall s, prov_source p = Ok s ->
                               institutional_like s = false) ps ->
    prov_loop float_of_str self st ps = Ok st' ->
    inst_vals st = [] -> inst_vals st' = [].
Proof.
  induction ps as [|p ps IH]; intros st st' HF H H1.
  - now injection H as <-.
  - simpl in H. apply bind_Ok in H as [st1 [Hs H]].
    inversion HF as [|? ? Hp HF']; subst.
    apply prov_step_inv in Hs
      as (i & src & c & _ & Hsrc & _ & _ & Ei & _ & _ & _).
    apply (IH st1 st' HF' H).
    rewrite Ei, (Hp src Hsrc). assumption.
Qed.

End SpecialInputs.




Lemma py_or_zero : py_or (VNum 0) (VNum 0) = VNum 0.
Proof.
  unfold py_or, truthy, Reqb.
  destruct (Req_dec_T 0 0); [reflexivity | contradiction].
Qed.



(** Without any institutional-like provocation (source_type
    institutional, state or agency, in any letter case) the flag
    INSTITUTIONAL_DOMINANCE is never raised. *)
Theorem no_institutional_no_dominance
    (float_of_str : string -> option R) (self : config)
    (provocations : list pydict) (nur rsz : pyval) (r : cr_result) :
  Forall (fun p => forall s, prov_source p = Ok s ->
                             institutional_like s = false) provocations ->
  compute_from_provocations float_of_str self provocations nur rsz = Ok r ->
  ~ In "INSTITUTIONAL_DOMINANCE" (flags r).
Proof.
  intros HF H.
  apply compute_from_provocations_inv in H
    as [[_ ->]|[_ [st [Hst ->]]]]; [simpl; tauto|].
  pose proof (prov_loop_no_institutional float_of_str self provocations
                loop_init st HF Hst eq_refl) as E.
  unfold cr_finish, flags. rewrite E, py_sum_nil.
  set (te := 0 + py_sum (ind_vals st) + 1e-12).
  assert (Rltb (0.6 * te) 0 && Rltb 1.0 te = false) as ->.
  { destruct (Rlt_dec 1.0 te) as [Ht|Ht].
    - rewrite (Rltb_false (0.6 * te) 0) by lra. reflexivity.
    - rewrite (Rltb_false 1.0 te) by assumption. apply andb_false_r. }
  intros Hin. apply in_app_or in Hin as [Hin|Hin].
  - destruct (_ && _); simpl in Hin; [|contradiction].
    destruct Hin as [Hin|[]]. discriminate.
  - apply in_app_or in Hin as [[]|Hin].
    destruct (_ && _); simpl in Hin; [|contradiction].
    destruct Hin as [Hin|[]]. discriminate.
Qed.

Lemma no_institutional_no_dominance_witness :
  exists r,
    compute_from_provocations float_of_str_none (ChaoticRisk None)
      [[("source_type", VStr "Individual"); ("intensity", VNum 50)]]
      sample_nur sample_rsz = Ok r
    /\ ~ In "INSTITUTIONAL_DOMINANCE" (flags r).
Proof.
  assert (prov_loop float_of_str_none (ChaoticRisk None) loop_init
            [[("source_type", VStr "Individual"); ("intensity", VNum 50)]]
          = Ok {| inst_vals := []; ind_vals := [50 * 1.0];
                  vector_map := [(VStr "unknown", 0 + Rabs (50 * 1.0))];
                  confidences := [0] |}) as HL.
  { unfold prov_loop, prov_step, get_or.
    cbn [dict_get String.eqb Ascii.eqb Bool.eqb].
    rewrite !py_or_num by lra. rewrite py_or_zero. cbn. reflexivity. }
  eexists. split.
  - unfold compute_from_provocations. rewrite HL. reflexivity.
  - apply (no_institutional_no_dominance float_of_str_none (ChaoticRisk None)
             [[("source_type", VStr "Individual"); ("intensity", VNum 50)]]
             sample_nur sample_rsz).
    + constructor; [|constructor].
      intros s Hs. injection Hs as <-. reflexivity.
    + unfold compute_from_provocations. rewrite HL. reflexivity.
Defined.

(** ** Chaotic risk layer: amplification and dampening *)

Lemma _norm01_mono (x y : R) : x <= y -> _norm01 x <= _norm01 y.
Proof.
  intros H. unfold _norm01. now apply Rle_max_compat_l, Rmin_mono_r.
Qed.

Lemma atan_mono (x y : R) : x <= y -> atan x <= atan y.
Proof.
  intros [H|H].
  - left. now apply atan_increasing.
  - right. now rewrite H.
Qed.

Lemma compressed_of_mono (total_energy m m' : R) :
  0 <= total_energy -> m <= m' ->
  compressed_of total_energy m <= compressed_of total_energy m'.
Proof.
  intros Ht Hm.
  unfold compressed_of, compressed_try, py_log10, py_div.
  destruct (Rlt_dec 0 (total_energy + 1.0)) as [_|N]; [|lra].
  simpl.
  assert (0 <= log10 (total_energy + 1.0)) as HL.
  { rewrite <- log10_1. apply log10_mono; lra. }
  set (d := 1.0 + log10 (total_energy + 1.0) + 1e-6).
  assert (0 < d) as Hd by (unfold d; lra).
  destruct (Req_dec_T d 0) as [E|_]; [lra|].
  simpl.
  pose proof PI_RGT_0 as Hpi.
  apply Rmult_le_compat_r.
  - left. apply Rinv_0_lt_compat. lra.
  - apply atan_mono. apply Rmult_le_compat_r; [|assumption].
    left. now apply Rinv_0_lt_compat.
Qed.

Lemma mean_nonneg (l : list R) :
  Forall (fun x => 0 <= x) l -> 0 <= mean l.
Proof.
  intros H. unfold mean.
  destruct l as [|x l'].
  - simpl. rewrite py_sum_nil. unfold Rdiv. rewrite Rmult_0_l. lra.
  - apply Rmult_le_pos; [now apply py_sum_nonneg|].
    left. apply Rinv_0_lt_compat, lt_0_INR. simpl. lia.
Qed.

Section Modulation.

Variable float_of_str : string -> option R.
Variable self : config.

Lemma prov_loop_nonneg (ps : list pydict) :
  0 <= w_institutional self -> 0 <= w_individual self ->
  forall st st',
    Forall (prov_nonneg float_of_str) ps ->
    prov_loop float_of_str self st ps = Ok st' ->
    Forall (fun x => 0 <= x) (inst_vals st) ->
    Forall (fun x => 0 <= x) (ind_vals st) ->
    Forall (fun x => 0 <= x) (confidences st) ->
    Forall (fun x => 0 <= x) (inst_vals st')
    /\ Forall (fun x => 0 <= x) (ind_vals st')
    /\ Forall (fun x => 0 <= x) (confidences st').
Proof.
  intros W1 W2.
  induction ps as [|p ps IH]; intros st st' HF H H1 H2 H3.
  - injection H as <-. auto.
  - simpl in H. apply bind_Ok in H as [st1 [Hs H]].
    inversion HF as [|? ? [Hpi Hpc] HF']; subst.
    apply prov_step_inv in Hs
      as (i & src & c & Hi & _ & Hc & _ & Ei & En & _ & Ec).
    specialize (Hpi i Hi). specialize (Hpc c Hc).
    assert (0 <= i * class_weight self src) as Hw.
    { apply Rmult_le_pos; [assumption|].
      unfold class_weight. destruct (institutional_like src); assumption. }
    apply (IH st1 st' HF' H).
    + rewrite Ei. destruct (institutional_like src); [|assumption].
      apply Forall_app. split; [assumption | constructor; [assumption | constructor]].
    + rewrite En. destruct (institutional_like src); [assumption|].
      apply Forall_app. split; [assumption | constructor; [assumption | constructor]].
    + rewrite Ec. apply Forall_app.
      split; [assumption | constructor; [assumption | constructor]].
Qed.

(** On a state without negative entries the final score grows with the
    severity read from nur and shrinks with the stability read from
    rsz. *)
Lemma cr_finish_modulation (st : loop_state) (nur nur' rsz rsz' : pyval) :
  config_nonneg self ->
  Forall (fun x => 0 <= x) (inst_vals st) ->
  Forall (fun x => 0 <= x) (ind_vals st) ->
  Forall (fun x => 0 <= x) (confidences st) ->
  Forall (fun kv => 0 <= snd kv) (vector_map st) ->
  nur_severity_of float_of_str nur <= nur_severity_of float_of_str nur' ->
  rsz_stability_of float_of_str rsz' <= rsz_stability_of float_of_str rsz ->
  cr_scalar (cr_finish float_of_str self st nur rsz)
  <= cr_scalar (cr_finish float_of_str self st nur' rsz').
Proof.
  intros (_ & _ & Wv & Wc & Wg) H1 H2 H3 H4 Hsev Hstab.
  unfold cr_finish, cr_scalar.
  apply round6_mono, _norm01_mono.
  apply Rmult_le_compat_r; [assumption|].
  pose proof (py_sum_nonneg _ H1) as S1.
  pose proof (py_sum_nonneg _ H2) as S2.
  apply compressed_of_mono; [lra|].
  assert (0 <= 1.0 - _entropy_of_weights (map snd (vector_map st))) as Hcoh.
  { assert (Forall (fun w => 0 <= w) (map snd (vector_map st))) as HV.
    { apply Forall_forall. intros w Hw.
      apply in_map_iff in Hw as [kv [<- Hkv]].
      rewrite Forall_forall in H4. now apply H4. }
    pose proof (entropy_of_weights_bounds_aux _ HV). lra. }
  assert (0 <= match confidences st with
               | [] => 0
               | _ :: _ => mean (confidences st)
               end) as Havg.
  { destruct (confidences st) eqn:E; [lra|].
    rewrite <- E in *. now apply mean_nonneg. }
  set (coh := 1.0 - _entropy_of_weights (map snd (vector_map st))) in *.
  set (avg := match confidences st with
              | [] => 0
              | _ :: _ => mean (confidences st)
              end) in *.
  assert (0 <= (py_sum (inst_vals st) + py_sum (ind_vals st))
               * (1.0 + w_vector_coherence self * coh)
               * (1.0 + w_confidence self * avg)) as Hraw.
  { apply Rmult_le_pos; [apply Rmult_le_pos|]; [lra | |].
    - pose proof (Rmult_le_pos _ _ Wv Hcoh). lra.
    - pose proof (Rmult_le_pos _ _ Wc Havg). lra. }
  set (raw := _ * (1.0 + w_confidence self * avg)) in *.
  pose proof (nur_amp_range (nur_severity_of float_of_str nur)) as A1.
  pose proof (rsz_damp_range (rsz_stability_of float_of_str rsz)) as D1.
  pose proof (rsz_damp_range (rsz_stability_of float_of_str rsz')) as D2.
  assert (nur_amp_of (nur_severity_of float_of_str nur)
          <= nur_amp_of (nur_severity_of float_of_str nur')) as HA.
  { unfold nur_amp_of. pose proof (_norm01_mono _ _ Hsev). lra. }
  assert (rsz_damp_of (rsz_stability_of float_of_str rsz)
          <= rsz_damp_of (rsz_stability_of float_of_str rsz')) as HD.
  { unfold rsz_damp_of. pose proof (_norm01_mono _ _ Hstab). lra. }
  rewrite !Rmult_assoc.
  apply Rmult_le_compat_l; [assumption|].
  apply Rmult_le_compat; lra.
Qed.

End Modulation.

(** Novelty amplifies, stability dampens.  With a configuration without
    negative weights and provocations whose intensities and confidences
    are not negative, two calls on the same provocations compare as
    their macro signals do: a higher severity read from nur, or a lower
    stability read from rsz, never gives a smaller cr_scalar. *)
Theorem cr_scalar_follows_severity_and_stability
    (float_of_str : string -> option R) (self : config)
    (provocations : list pydict) (nur nur' rsz rsz' : pyval)
    (r r' : cr_result) :
  config_nonneg self ->
  Forall (prov_nonneg float_of_str) provocations ->
  compute_from_provocations float_of_str self provocations nur rsz = Ok r ->
  compute_from_provocations float_of_str self provocations nur' rsz'
  = Ok r' ->
  nur_severity_of float_of_str nur <= nur_severity_of float_of_str nur' ->
  rsz_stability_of float_of_str rsz' <= rsz_stability_of float_of_str rsz ->
  cr_scalar r <= cr_scalar r'.
Proof.
  intros Hcfg HF H H' Hsev Hstab.
  apply compute_from_provocations_inv in H
    as [[-> ->]|[Hne [st [Hst ->]]]].
  - injection H' as <-. simpl. lra.
  - apply compute_from_provocations_inv in H'
      as [[-> _]|[_ [st' [Hst' ->]]]]; [congruence|].
    rewrite Hst in Hst'. injection Hst' as <-.
    destruct Hcfg as (W1 & W2 & W3).
    destruct (prov_loop_nonneg float_of_str self provocations W1 W2
                loop_init st HF Hst (Forall_nil _) (Forall_nil _)
                (Forall_nil _)) as (N1 & N2 & N3).
    pose proof (prov_loop_invariants float_of_str self provocations
                  loop_init st Hst) as (_ & _ & _ & _ & I5 & _).
    apply cr_finish_modulation; try assumption.
    + repeat split; tauto.
    + apply I5. constructor.
Qed.

Lemma sample_compute_any (nur rsz : pyval) :
  compute_from_provocations float_of_str_none (ChaoticRisk None)
    [sample_provocation] nur rsz
  = Ok (cr_finish float_of_str_none (ChaoticRisk None) sample_state nur rsz).
Proof.
  unfold compute_from_provocations. now rewrite sample_loop.
Qed.

Lemma sample_provocation_nonneg :
  prov_nonneg float_of_str_none sample_provocation.
Proof.
  unfold prov_nonneg, prov_intensity, prov_confidence, sample_provocation,
    get_or.
  cbn [dict_get String.eqb Ascii.eqb Bool.eqb].
  rewrite !py_or_num by lra. simpl.
  split; intros x [= <-]; lra.
Qed.

Lemma cr_scalar_follows_severity_and_stability_witness :
  cr_scalar (cr_finish float_of_str_none (ChaoticRisk None) sample_state
               sample_nur sample_rsz)
  <= cr_scalar (cr_finish float_of_str_none (ChaoticRisk None) sample_state
                  edge_nur sample_rsz).
Proof.
  apply (cr_scalar_follows_severity_and_stability float_of_str_none
           (ChaoticRisk None) [sample_provocation]
           sample_nur edge_nur sample_rsz sample_rsz).
  - unfold config_nonneg. simpl. repeat split; lra.
  - constructor; [apply sample_provocation_nonneg | constructor].
  - apply sample_compute_any.
  - apply sample_compute_any.
  - unfold nur_severity_of, sample_nur, edge_nur.
    rewrite (signal_field_primary float_of_str_none
               [("severity_score", VNum 0.5)] "severity_score" _ 0.5 eq_refl).
    rewrite (signal_field_primary float_of_str_none
               [("severity_score", VNum 1)] "severity_score" _ 1 eq_refl).
    lra.
  - lra.
Defined.

(** ** Integrator: the mapping built from the portfolio *)

Lemma dict_set_keys (d : list (string * R)) (k : string) (v : R) :
  (In k (map fst d) -> map fst (dict_set d k v) = map fst d)
  /\ (~ In k (map fst d) -> map fst (dict_set d k v) = map fst d ++ [k]).
Proof.
  induction d as [|[k' v'] d [IH1 IH2]]; simpl.
  - split; [contradiction | reflexivity].
  - destruct (String.eqb_spec k' k) as [->|NE]; simpl.
    + split; [reflexivity | intros N; exfalso; apply N; now left].
    + split.
      * intros [E|Hin]; [contradiction|]. now rewrite IH1.
      * intros N. rewrite IH2; [reflexivity|]. intros Hin. apply N. now right.
Qed.

Lemma dict_set_In_keys (d : list (string * R)) (k : string) (v : R)
    (x : string) :
  In x (map fst (dict_set d k v)) <-> In x (map fst d) \/ x = k.
Proof.
  destruct (dict_set_keys d k v) as [H1 H2].
  destruct (in_dec string_dec k (map fst d)) as [Hin|Hnin].
  - rewrite (H1 Hin). split; [now left | intros [H | E]; [assumption | now subst]].
  - rewrite (H2 Hnin), in_app_iff. simpl. split.
    + intros [H | [E | []]]; [now left | right; now symmetry].
    + intros [H | E]; [now left | right; left; now symmetry].
Qed.

Lemma dict_set_NoDup (d : list (string * R)) (k : string) (v : R) :
  NoDup (map fst d) -> NoDup (map fst (dict_set d k v)).
Proof.
  intros HN. destruct (dict_set_keys d k v) as [H1 H2].
  destruct (in_dec string_dec k (map fst d)) as [Hin|Hnin].
  - now rewrite (H1 Hin).
  - rewrite (H2 Hnin). apply NoDup_app; try assumption.
    + repeat constructor. intros [].
    + intros x Hx [E | []]. subst. contradiction.
Qed.

Lemma dict_set_length (d : list (string * R)) (k : string) (v : R) :
  (List.length (dict_set d k v) <= S (List.length d))%nat.
Proof.
  induction d as [|[k' v'] d IH]; simpl; [lia|].
  destruct (String.eqb k' k); simpl; lia.
Qed.

Lemma weight_lookup_set_same (d : list (string * R)) (k : string) (v : R) :
  weight_lookup (dict_set d k v) k = Some v.
Proof.
  induction d as [|[k' v'] d IH]; simpl.
  - now rewrite String.eqb_refl.
  - destruct (String.eqb k' k) eqn:E; simpl; rewrite E; [reflexivity | exact IH].
Qed.

Lemma weight_lookup_set_other (d : list (string * R)) (k k' : string)
    (v : R) :
  k' <> k -> weight_lookup (dict_set d k' v) k = weight_lookup d k.
Proof.
  intros NE. induction d as [|[k0 v0] d IH]; simpl.
  - apply String.eqb_neq in NE. now rewrite NE.
  - destruct (String.eqb_spec k0 k') as [->|N0]; simpl.
    + apply String.eqb_neq in NE. now rewrite NE.
    + destruct (String.eqb k0 k); [reflexivity | exact IH].
Qed.

Lemma dict_set_nonneg (d : list (string * R)) (k : string) (v : R) :
  Forall (fun kw => 0 <= snd kw) d -> 0 <= v ->
  Forall (fun kw => 0 <= snd kw) (dict_set d k v).
Proof.
  intros Hd Hv. induction Hd as [|[k' v'] d Hk Hd IH]; simpl.
  - constructor; [assumption | constructor].
  - destruct (String.eqb k' k); constructor; simpl in *; assumption.
Qed.

(** The fold behind [weights_of], from any accumulator. *)
Lemma weights_fold_spec (portfolio : list holding) :
  forall d,
    let d' := fold_left (fun d p => dict_set d (isin p) (weight_or_zero p))
                        portfolio d in
    (NoDup (map fst d) -> NoDup (map fst d'))
    /\ (forall k, In k (map fst d')
                  <-> In k (map fst d) \/ In k (map isin portfolio))
    /\ (List.length d' <= List.length d + List.length portfolio)%nat
    /\ (forall k, ~ In k (map isin portfolio) ->
                  weight_lookup d' k = weight_lookup d k)
    /\ (Forall (fun kw => 0 <= snd kw) d ->
        Forall (fun p => 0 <= weight_or_zero p) portfolio ->
        Forall (fun kw => 0 <= snd kw) d').
Proof.
  induction portfolio as [|p ps IH]; intros d; simpl.
  - repeat split; auto; try lia; tauto.
  - specialize (IH (dict_set d (isin p) (weight_or_zero p))).
    simpl in IH. destruct IH as (I1 & I2 & I3 & I4 & I5).
    pose proof (dict_set_length d (isin p) (weight_or_zero p)) as HL.
    split; [|split; [|split; [|split]]].
    + intros HN. now apply I1, dict_set_NoDup.
    + intros k. rewrite I2, dict_set_In_keys. intuition (subst; auto).
    + lia.
    + intros k Hk. rewrite I4 by tauto.
      apply weight_lookup_set_other. intros E. apply Hk. now left.
    + intros Hd Hp. inversion Hp; subst.
      apply I5; [|assumption]. now apply dict_set_nonneg.
Qed.

(** Duplicate isins are merged, the last weight wins: the mapping built
    from a portfolio has each isin of the portfolio once and no other
    key, at most as many entries as the portfolio, and under every isin
    the weight of the last holding that carries it (0.0 when that
    holding has no weight). *)
Theorem weights_of_last_wins (portfolio : list holding) :
  NoDup (map fst (weights_of portfolio))
  /\ (forall k, In k (map fst (weights_of portfolio))
                <-> In k (map isin portfolio))
  /\ (List.length (weights_of portfolio) <= List.length portfolio)%nat
  /\ (forall before h after,
        portfolio = before ++ h :: after ->
        ~ In (isin h) (map isin after) ->
        weight_lookup (weights_of portfolio) (isin h)
        = Some (weight_or_zero h)).
Proof.
  unfold weights_of. fold weight_or_zero.
  change (fun (d : list (string * R)) (p : holding) =>
            dict_set d (isin p) match weight p with
                                | Some w => w
                                | None => 0.0
                                end)
    with (fun d p => dict_set d (isin p) (weight_or_zero p)).
  pose proof (weights_fold_spec portfolio []) as (I1 & I2 & I3 & _ & _).
  simpl in I1, I2, I3.
  split; [apply I1; constructor|].
  split; [intros k; rewrite I2; tauto|].
  split; [assumption|].
  intros before h after -> Hnin.
  rewrite fold_left_app. simpl.
  pose proof (weights_fold_spec after
                (dict_set (fold_left
                             (fun d p => dict_set d (isin p) (weight_or_zero p))
                             before [])
                          (isin h) (weight_or_zero h)))
    as (_ & _ & _ & I4 & _).
  simpl in I4. rewrite (I4 _ Hnin). apply weight_lookup_set_same.
Qed.

(** ** Integrator: range of the composite, levels, sub-engine errors *)



Section IntegratorRange.

Variable float_of_str : string -> option R.
Variable self : integrator.

(** The engine results a returning call of [integrate] carries. *)
Lemma integrate_trace (portfolio : list holding) (nur rsz cycles : pyval)
    (market_expectation objective_prob : option R)
    (sentiments : option (list R)) (provocations : option (list pydict))
    (r : risk_result) :
  integrate float_of_str self portfolio nur rsz cycles market_expectation
    objective_prob sentiments provocations = Ok r ->
  portfolio_hhi r = compute_hhi_structured (weights_of portfolio)
  /\ hope r
     = match market_expectation, objective_prob with
       | Some me, Some op => compute_hmi me (Some op)
       | _, _ => {| hmi := None; hope_error := None; hmi_normalized := 0.0 |}
       end
  /\ sentiment_agg r
     = aggregate_sentiment_from_sources
         (match sentiments with Some l => l | None => [] end)
  /\ out_nur r = nur /\ out_rsz r = rsz /\ out_cycles r = cycles
  /\ out_provocations r
     = match provocations with Some l => l | None => [] end.
Proof.
  unfold integrate. intros H.
  apply bind_Ok in H as [cr_res [_ H]].
  apply bind_Ok in H as [t1 [_ H]].
  apply bind_Ok in H as [t2 [_ H]].
  apply bind_Ok in H as [t3 [_ H]].
  injection H as <-. simpl. repeat split.
Qed.


End IntegratorRange.



(** A larger weighted sum never gives a lower risk level, in the order
    STABLE, WATCH, ELEVATED, DANGER. *)
Theorem risk_level_monotone (s s' : R) :
  s <= s' ->
  (level_rank (risk_level_of s) <= level_rank (risk_level_of s'))%nat.
Proof.
  intros H. unfold risk_level_of.
  destruct (Rlt_dec 0.65 s), (Rlt_dec 0.65 s'); simpl; try lia; try lra;
    destruct (Rlt_dec 0.4 s), (Rlt_dec 0.4 s'); simpl; try lia; try lra;
    destruct (Rlt_dec 0.2 s), (Rlt_dec 0.2 s'); simpl; try lia; lra.
Qed.

Lemma risk_level_monotone_witness :
  (level_rank (risk_level_of 0.3) <= level_rank (risk_level_of 0.5))%nat.
Proof. apply risk_level_monotone. lra. Defined.

(** Failures of the two leaf engines do not stop the pipeline: a
    returning call carries the concentration result as computed on the
    portfolio's mapping and, when that is an error (empty portfolio or
    zero total), counts 0 for the concentration; it carries an error of
    the mispricing index exactly when both numbers were supplied and
    the objective probability is <= 0, and counts 0 for the mispricing
    in that case and whenever one of the two numbers is absent. *)
Theorem integrate_carries_engine_errors
    (float_of_str : string -> option R) (self : integrator)
    (portfolio : list holding) (nur rsz cycles : pyval)
    (market_expectation objective_prob : option R)
    (sentiments : option (list R)) (provocations : option (list pydict))
    (r : risk_result) :
  integrate float_of_str self portfolio nur rsz cycles market_expectation
    objective_prob sentiments provocations = Ok r ->
  portfolio_hhi r = compute_hhi_structured (weights_of portfolio)
  /\ (hhi_error_field (portfolio_hhi r) <> None
      <-> weights_of portfolio = [] \/ total_of (weights_of portfolio) = 0)
  /\ (hhi_error_field (portfolio_hhi r) <> None ->
      hhi_normalized_or (portfolio_hhi r) 0 = 0)
  /\ (hope_error (hope r) <> None
      <-> exists m p, market_expectation = Some m
                      /\ objective_prob = Some p /\ p <= 0)
  /\ (hope_error (hope r) <> None -> hmi_normalized (hope r) = 0)
  /\ (market_expectation = None \/ objective_prob = None ->
      hmi (hope r) = None /\ hmi_normalized (hope r) = 0).
Proof.
  intros H. apply integrate_trace in H as (EH & EP & _).
  split; [exact EH|].
  split; [rewrite EH; apply hhi_error_iff|].
  split.
  { destruct (portfolio_hhi r); simpl; [reflexivity | congruence]. }
  rewrite EP.
  destruct market_expectation as [m|], objective_prob as [p|]; simpl.
  - unfold compute_hmi. destruct (Rle_dec p 0) as [Hp|Hp]; simpl.
    + split; [|split].
      * split; [intros _; exists m, p; auto | discriminate].
      * reflexivity.
      * intros [N|N]; discriminate.
    + split; [|split].
      * split; [congruence|].
        intros (m' & p' & _ & Ep & Hp'). injection Ep as <-. contradiction.
      * congruence.
      * intros [N|N]; discriminate.
  - split; [|split].
    + split; [congruence | intros (m' & p' & _ & N & _); discriminate].
    + congruence.
    + intros _. split; [reflexivity | lra].
  - split; [|split].
    + split; [congruence | intros (m' & p' & N & _); discriminate].
    + congruence.
    + intros _. split; [reflexivity | lra].
  - split; [|split].
    + split; [congruence | intros (m' & p' & N & _); discriminate].
    + congruence.
    + intros _. split; [reflexivity | lra].
Qed.

Lemma integrate_carries_engine_errors_witness :
  exists r,
    integrate float_of_str_none risk_integrator [] edge_nur edge_rsz
      edge_cycles (Some 1) (Some 0) None None = Ok r
    /\ portfolio_hhi r = compute_hhi_structured (weights_of [])
    /\ (hhi_error_field (portfolio_hhi r) <> None
        <-> weights_of [] = [] \/ total_of (weights_of []) = 0)
    /\ (hhi_error_field (portfolio_hhi r) <> None ->
        hhi_normalized_or (portfolio_hhi r) 0 = 0)
    /\ (hope_error (hope r) <> None
        <-> exists m p, Some 1 = Some m /\ Some 0 = Some p /\ p <= 0)
    /\ (hope_error (hope r) <> None -> hmi_normalized (hope r) = 0)
    /\ (Some 1 = None \/ Some 0 = None ->
        hmi (hope r) = None /\ hmi_normalized (hope r) = 0).
Proof.
  eexists. split; [reflexivity|].
  apply (integrate_carries_engine_errors float_of_str_none risk_integrator []
           edge_nur edge_rsz edge_cycles (Some 1) (Some 0) None None).
  reflexivity.
Defined.

(** ** The wrapper [compute_hhi_for_portfolio] *)

Section WrapperProperties.

Variable float_of_str : string -> option R.

Lemma floats_of_Ok (ws : list pyval) (xs : list R) :
  floats_of float_of_str ws = Ok xs ->
  List.length xs = List.length ws
  /\ forall w, In w ws -> returns (py_float float_of_str w).
Proof.
  revert xs. induction ws as [|w ws IH]; intros xs H; simpl in H.
  - injection H as <-. split; [reflexivity | intros w []].
  - apply bind_Ok in H as [x [Hx H]].
    apply bind_Ok in H as [xs' [Hxs H]]. injection H as <-.
    destruct (IH xs' Hxs) as [IL IR].
    split; [simpl; now rewrite IL|].
    intros w' [<-|Hin]; [eexists; eassumption | now apply IR].
Qed.

Lemma floats_of_Raise (ws : list pyval) (e : pyexn) :
  floats_of float_of_str ws = Raise e ->
  exists w, In w ws /\ ~ returns (py_float float_of_str w).
Proof.
  revert e. induction ws as [|w ws IH]; intros e; simpl; [discriminate|].
  destruct (py_float float_of_str w) as [x|e'] eqn:Hw; simpl.
  - destruct (floats_of float_of_str ws) as [xs|e''] eqn:Hws; simpl;
      [discriminate|].
    intros _. destruct (IH e'' eq_refl) as [w' [Hin Hn]].
    exists w'. split; [now right | assumption].
  - intros _. exists w. split; [now left|].
    intros [a Ha]. congruence.
Qed.

(** The three outcomes of the wrapper on lists, weights first: a weight
    that [float] rejects gives "Weights must be numeric" whatever the
    isins; otherwise lists of different lengths give "ISINs count does
    not match weights count"; otherwise the result is that of
    [compute_hhi_structured] on the pairing. *)
Theorem portfolio_wrapper_outcomes (isins : list string)
    (weights : list pyval) :
  let r := compute_hhi_for_portfolio float_of_str (IsinsList isins)
             (WeightsList weights) in
  (r = PortfolioError "Weights must be numeric"
   <-> exists w, In w weights /\ ~ returns (py_float float_of_str w))
  /\ (r = PortfolioError "ISINs count does not match weights count"
      <-> (forall w, In w weights -> returns (py_float float_of_str w))
          /\ List.length isins <> List.length weights)
  /\ (forall res,
        r = PortfolioResult res
        <-> exists xs,
              floats_of float_of_str weights = Ok xs
              /\ List.length isins = List.length weights
              /\ res = compute_hhi_structured (paired isins xs)).
Proof.
  unfold compute_hhi_for_portfolio.
  destruct (floats_of float_of_str weights) as [xs|e] eqn:Hf.
  - destruct (floats_of_Ok _ _ Hf) as [HL HR]. rewrite HL.
    destruct (Nat.eqb_spec (List.length isins) (List.length weights))
      as [E|NE]; simpl.
    + split; [|split].
      * split; [discriminate|].
        intros [w [Hin Hn]]. exfalso. apply Hn. now apply HR.
      * split; [discriminate | intros [_ N]; contradiction].
      * intros res. split.
        -- intros [= <-]. exists xs. auto.
        -- intros [xs' [[= <-] [_ ->]]]. reflexivity.
    + split; [|split].
      * split; [discriminate|].
        intros [w [Hin Hn]]. exfalso. apply Hn. now apply HR.
      * split; [intros _; now split | reflexivity].
      * intros res. split; [discriminate|].
        intros [xs' [_ [E _]]]. contradiction.
  - destruct (floats_of_Raise _ _ Hf) as [w [Hin Hn]].
    split; [|split].
    + split; [intros _; eauto | reflexivity].
    + split; [discriminate|].
      intros [HR _]. exfalso. apply Hn. now apply HR.
    + intros res. split; [discriminate|].
      intros [xs' [N _]]. discriminate.
Qed.

End WrapperProperties.

Lemma dict_set_new (d : list (string * R)) (k : string) (v : R) :
  ~ In k (map fst d) -> dict_set d k v = d ++ [(k, v)].
Proof.
  induction d as [|[k' v'] d IH]; simpl; intros N; [reflexivity|].
  destruct (String.eqb_spec k' k) as [E|NE].
  - exfalso. apply N. now left.
  - rewrite IH; [reflexivity|]. intros H. apply N. now right.
Qed.

Lemma paired_fold_distinct (isins : list string) :
  forall (xs : list R) (d : list (string * R)),
    NoDup isins ->
    (forall k, In k isins -> ~ In k (map fst d)) ->
    fold_left (fun d kw => dict_set d (fst kw) (snd kw)) (combine isins xs) d
    = d ++ combine isins xs.
Proof.
  induction isins as [|k ks IH]; intros xs d HN Hd; simpl.
  - now rewrite app_nil_r.
  - destruct xs as [|x xs]; simpl; [now rewrite app_nil_r|].
    inversion HN as [|? ? Hk HN']; subst.
    rewrite dict_set_new by (apply Hd; now left).
    rewrite IH; [now rewrite <- app_assoc | assumption|].
    intros k' Hk'. rewrite map_app, in_app_iff. simpl.
    intros [H|[<-|[]]].
    + apply (Hd k'); [now right | assumption].
    + contradiction.
Qed.

(** With distinct isins the wrapper computes the index of the weights as
    they are given: the pairing is the list of (isin, weight) pairs in
    order, so n is the number of isins. *)
Theorem portfolio_wrapper_distinct (float_of_str : string -> option R)
    (isins : list string) (weights : list pyval) (xs : list R) :
  NoDup isins ->
  floats_of float_of_str weights = Ok xs ->
  List.length isins = List.length weights ->
  compute_hhi_for_portfolio float_of_str (IsinsList isins)
    (WeightsList weights)
  = PortfolioResult (compute_hhi_structured (combine isins xs))
  /\ List.length (combine isins xs) = List.length isins.
Proof.
  intros HN Hf HL.
  destruct (floats_of_Ok _ _ _ Hf) as [HLx _].
  unfold compute_hhi_for_portfolio. rewrite Hf, HLx, HL, Nat.eqb_refl.
  simpl. unfold paired.
  rewrite paired_fold_distinct; [|assumption | intros k _ []].
  split; [reflexivity|].
  rewrite length_combine. lia.
Qed.

Lemma portfolio_wrapper_distinct_witness :
  compute_hhi_for_portfolio float_of_str_none (IsinsList ["A"; "B"])
    (WeightsList [VNum 50; VNum 50])
  = PortfolioResult (compute_hhi_structured
                       (combine ["A"; "B"] [50; 50]))
  /\ List.length (combine ["A"; "B"] [50; 50]) = 2%nat.
Proof.
  apply (portfolio_wrapper_distinct float_of_str_none ["A"; "B"]
           [VNum 50; VNum 50] [50; 50]).
  - repeat constructor; simpl; intuition discriminate.
  - reflexivity.
  - reflexivity.
Defined.

(** *** Tokens of a comma-separated string *)

Lemma lstrip_incl (s : string) (c : ascii) :
  In c (list_ascii_of_string (lstrip s)) -> In c (list_ascii_of_string s).
Proof.
  induction s as [|a s IH]; simpl; [tauto|].
  destruct (is_space a); simpl; [intros H; right; now apply IH | tauto].
Qed.

Lemma rstrip_incl (s : string) (c : ascii) :
  In c (list_ascii_of_string (rstrip s)) -> In c (list_ascii_of_string s).
Proof.
  induction s as [|a s IH]; simpl; [tauto|].
  destruct (is_space a && String.eqb (rstrip s) EmptyString); simpl;
    [tauto|].
  intros [H|H]; [now left | right; now apply IH].
Qed.

Lemma rstrip_idempotent (s : string) : rstrip (rstrip s) = rstrip s.
Proof.
  induction s as [|a s IH]; simpl; [reflexivity|].
  destruct (is_space a && String.eqb (rstrip s) EmptyString) eqn:E;
    simpl; [reflexivity|].
  now rewrite IH, E.
Qed.

Lemma strip_idempotent (s : string) : strip (strip s) = strip s.
Proof.
  unfold strip.
  assert (lstrip s = EmptyString
          \/ exists c r, lstrip s = String c r /\ is_space c = false) as H.
  { induction s as [|a s IH]; simpl; [now left|].
    destruct (is_space a) eqn:E; [exact IH | right; eauto]. }
  destruct H as [->|(c & r & -> & Hc)]; [reflexivity|].
  simpl. rewrite Hc. simpl. rewrite Hc. simpl.
  rewrite Hc. simpl. now rewrite rstrip_idempotent.
Qed.

Lemma split_on_no_sep (sep : ascii) (s : string) :
  split_on sep s <> []
  /\ Forall (fun t => ~ In sep (list_ascii_of_string t)) (split_on sep s).
Proof.
  induction s as [|a s [IH1 IH2]]; simpl.
  - split; [discriminate | constructor; [simpl; tauto | constructor]].
  - destruct (Ascii.eqb_spec a sep) as [E|NE].
    + split; [discriminate | constructor; [simpl; tauto | assumption]].
    + destruct (split_on sep s) as [|t ts]; [congruence|].
      split; [discriminate|].
      inversion IH2; subst. constructor; [|assumption].
      simpl. intros [H|H]; [now apply NE | contradiction].
Qed.

(** The identifiers and weight tokens read from a comma-separated
    string are never empty, carry no surrounding whitespace and contain
    no comma; on two such strings the wrapper is the wrapper on the
    lists of their tokens. *)
Theorem portfolio_tokens_clean (float_of_str : string -> option R)
    (isins weights : string) :
  Forall (fun t => t <> EmptyString /\ strip t = t
                   /\ ~ In ","%char (list_ascii_of_string t))
         (tokens isins)
  /\ compute_hhi_for_portfolio float_of_str (IsinsStr isins)
       (WeightsStr weights)
     = compute_hhi_for_portfolio float_of_str (IsinsList (tokens isins))
         (WeightsList (map VStr (tokens weights))).
Proof.
  split; [|reflexivity].
  unfold tokens. apply Forall_forall. intros t Ht.
  apply filter_In in Ht as [Ht Hne].
  apply in_map_iff in Ht as [u [<- Hu]].
  split; [|split].
  - intros E. rewrite E in Hne. discriminate.
  - apply strip_idempotent.
  - destruct (split_on_no_sep "," isins) as [_ HF].
    rewrite Forall_forall in HF. intros Hin. apply (HF u Hu).
    unfold strip in Hin. now apply lstrip_incl, rstrip_incl.
Qed.

Example tokens_example :
  tokens " US111 ,, US222 , " = ["US111"; "US222"].
Proof. reflexivity. Qed.
